(** * Smart Money monitor: a shallow embedding of [index.js]

    The monitor keeps a WebSocket to a Solana RPC provider, subscribes to the
    logs of six DEX programs and of the tracked wallets, de-duplicates the log
    notifications by transaction signature, classifies them and writes the
    addresses it finds to the [candidate_wallets] table.

    The embedding follows [class SolanaMonitor] method by method.  A method
    becomes a function from the monitor's fields to the new fields and the
    list of effects it performed, in program order (console output, frames
    sent on the socket, timers, store writes, process exit). *)

From Stdlib Require Import ZArith List String Ascii Bool Arith Lia Floats DecimalString.
Import ListNotations.

Local Open Scope string_scope.
Local Open Scope list_scope.

(** ** JavaScript values used by the monitor *)

Module JS.

(** [String.prototype.includes]: [sub] occurs in [s] at some index. *)
Fixpoint includes (s sub : string) : bool :=
  String.prefix sub s ||
  match s with
  | EmptyString => false
  | String _ s' => includes s' sub
  end.

(** The declarative reading of "contains as a substring". *)
Definition Substring (sub s : string) : Prop :=
  exists pre post, s = (pre ++ sub ++ post)%string.

(** [Array.prototype.some]. *)
Definition some {A} (p : A -> bool) (xs : list A) : bool := existsb p xs.

(** A [Set] of strings or numbers keeps its elements in insertion order and
    compares them by value: a list without repetition.  [has], [add], [size],
    [Array.from] and [clear] are then the following. *)
Section SetOps.
Context {A : Type} (eqb : A -> A -> bool).

Definition has (s : list A) (x : A) : bool := existsb (eqb x) s.

Definition add (s : list A) (x : A) : list A :=
  if has s x then s else s ++ [x].

(** [new Set(iterable)] adds the elements one by one. *)
Definition from_list (xs : list A) : list A := fold_left add xs [].
End SetOps.

(** [Array.prototype.slice(-n)]: the last [n] elements, the whole array when
    it has fewer. *)
Definition slice_last {A} (n : nat) (xs : list A) : list A :=
  skipn (List.length xs - n) xs.

(** Truthiness of a number and of a string, and of a possibly missing
    property ([None] is [undefined] or [null]). *)
Definition truthy_num (z : Z) : bool := negb (z =? 0)%Z.
Definition truthy_str (s : string) : bool := negb (s =? "").
Definition truthy_opt {A} (t : A -> bool) (v : option A) : bool :=
  match v with Some a => t a | None => false end.

(** [Math.min] on two IEEE-754 doubles. *)
Definition Math_min (a b : float) : float :=
  if PrimFloat.is_nan a || PrimFloat.is_nan b then nan
  else if PrimFloat.ltb a b then a else b.

(** The integer part of a finite double ([Math.trunc]). *)
Definition trunc (f : float) : option Z :=
  match Prim2SF f with
  | S754_zero _ => Some 0%Z
  | S754_finite s m e =>
      let a := if (e <? 0)%Z then Z.shiftr (Zpos m) (- e) else Z.shiftl (Zpos m) e in
      Some (if s then (- a)%Z else a)
  | _ => None
  end.

End JS.

(** ** Configuration *)

Definition RAYDIUM  := "675kPX9MHTjS2zt1qfr1NYHuzeLXfQM9H24wFSUt1Mp8".
Definition JUPITER  := "JUP6LkbZbjS1jKKwapdHNy74zcZ3tLUZoi5QNyVTaV4".
Definition ORCA     := "whirLbMiicVdio4qvUfM5KAg6Ct8VwpYzGff3uctyCc".
Definition PUMP_FUN := "6EF8rrecthR5Dkzon8Nwu78hRvfCKubJ14M5uBEwF6P".
Definition METEORA  := "Eo7WjKq67rjJQSZxS6z3YkapzY3eMj6Xy8X5EQVn5UaB".
Definition OPENBOOK := "srmqPiDkJXRLGgxtFBRNJhGjLhQKLLqPKCCQGLFTQqo".

(** [Object.values(DEX_PROGRAM_IDS)], in the order of the object literal. *)
Definition ACTIVE_DEX_PROGRAMS : list string :=
  [RAYDIUM; JUPITER; ORCA; PUMP_FUN; METEORA; OPENBOOK].

(** ** Classifier *)

(** [isDEXTransaction(logs)] on an array of log lines. *)
Definition isDEXTransaction (logs : list string) : bool :=
  JS.some (fun log =>
      JS.some (fun programId => JS.includes log programId) ACTIVE_DEX_PROGRAMS
      || JS.includes log "swap"
      || JS.includes log "trade"
      || JS.includes log "exchange")
    logs.

(** ** Wallet extractor *)

Module WalletRegex.

(** The character class [[1-9A-HJ-NP-Za-km-z]]. *)
Definition in_class (c : ascii) : bool :=
  (("1" <=? c) && (c <=? "9")
   || ("A" <=? c) && (c <=? "H")
   || ("J" <=? c) && (c <=? "N")
   || ("P" <=? c) && (c <=? "Z")
   || ("a" <=? c) && (c <=? "k")
   || ("m" <=? c) && (c <=? "z"))%char.

(** The greedy quantifier: the longest prefix of [s] made of class
    characters, at most [n] of them. *)
Fixpoint take_class (n : nat) (s : string) : string :=
  match n, s with
  | S k, String c s' => if in_class c then String c (take_class k s') else ""
  | _, _ => ""
  end.

(** One attempt of [/[1-9A-HJ-NP-Za-km-z]{32,44}/] at the start of [s]. *)
Definition match_at (s : string) : option string :=
  let t := take_class 44 s in
  if (32 <=? String.length t)%nat then Some t else None.

(** [log.match(walletRegex)] with the [g] flag: the attempts go from left to
    right; after a match the next attempt starts where the match ended,
    after a failure one character further.  [skip] counts the characters of
    the last match that are still to be passed. *)
Fixpoint scan (skip : nat) (s : string) : list string :=
  match s with
  | EmptyString => []
  | String _ s' =>
      match skip with
      | S k => scan k s'
      | O =>
          match match_at s with
          | Some t => t :: scan (String.length t - 1) s'
          | None => scan 0 s'
          end
      end
  end.

(** The array of matches ([null] when there is none, here the empty list). *)
Definition match_all (s : string) : list string := scan 0 s.

End WalletRegex.

(** [extractWalletAddresses(logs)]. *)
Definition extractWalletAddresses (logs : list string) : list string :=
  fold_left
    (fun walletAddresses log =>
       fold_left
         (fun acc address =>
            if ((32 <=? String.length address) && (String.length address <=? 44))%nat
            then JS.add String.eqb acc address
            else acc)
         (WalletRegex.match_all log) walletAddresses)
    logs [].

(** ** The monitor's fields, messages and effects *)

Inductive ReadyState := CONNECTING | OPEN | CLOSING | CLOSED.

(** The fields of [SolanaMonitor].  [ws] is [None] for [null] and otherwise
    the socket, of which the monitor reads the [readyState] only. *)
Record SolanaMonitor := mkMonitor {
  ws : option ReadyState;
  isConnected : bool;
  reconnectAttempts : Z;
  maxReconnectAttempts : Z;
  reconnectDelay : float;
  subscriptionIds : list Z;
  trackedWallets : list string;
  processedTransactions : list string
}.

(** [new SolanaMonitor()]. *)
Definition constructor : SolanaMonitor :=
  {| ws := None;
     isConnected := false;
     reconnectAttempts := 0;
     maxReconnectAttempts := 10;
     reconnectDelay := 5000;
     subscriptionIds := [];
     trackedWallets := [];
     processedTransactions := [] |}.

(** The subscribe request
    [{jsonrpc, id, method, params: [{mentions}, {commitment}]}]. *)
Record SubscribeMessage := mkSubscribe {
  sub_jsonrpc : string;
  sub_id : Z;
  sub_method : string;
  sub_mentions : list string;
  sub_commitment : string
}.

(** The row upserted into [candidate_wallets] (its [discovery_timestamp], the
    wall clock's reading, is left out). *)
Record CandidateWallet := mkCandidate {
  wallet_address : string;
  discovery_source : string;
  discovery_type : string;
  initial_score : Z;
  confidence : float;
  status : string;
  metadata_signature : string;
  metadata_slot : option Z
}.

(** What a method does besides updating the fields.  Console lines carry the
    fixed text of the message. *)
Inductive Effect :=
| ConsoleLog (text : string)
| ConsoleError (text : string)
| NewWebSocket
| WsSend (message : SubscribeMessage)
| SetTimeoutConnect (delay : float)
| Upsert (table : string) (row : CandidateWallet) (onConflict : string)
| ProcessExit (code : Z).

(** The monitor after a method returned: still running, or the process has
    exited. *)
Inductive Process :=
| Running (m : SolanaMonitor)
| Exited (code : Z).

(** A log notification, [{context: {slot}, value: {signature, logs, err}}];
    a property may be missing. *)
Record LogValue := mkLogValue {
  signature : option string;
  logs : option (list string)
}.

Record LogContext := mkLogContext { slot : option Z }.

Record LogEntry := mkLogEntry {
  context : option LogContext;
  value : option LogValue
}.

(** A parsed frame: the properties [handleMessage] reads. *)
Record RpcError := mkRpcError { error_code : Z; error_message : string }.

Record Params := mkParams { params_result : option LogEntry }.

Record Message := mkMessage {
  msg_id : option Z;
  msg_result : option Z;
  msg_error : option RpcError;
  msg_method : option string;
  msg_params : option Params
}.

(** What the store answers to a call. *)
Inductive StoreReply := StoreOk | StoreError | StoreThrows.

Inductive LoadReply :=
| LoadData (wallet_addresses : list string)
| LoadError
| LoadThrows.

(** ** Field updates *)

Definition set_ws (m : SolanaMonitor) (v : option ReadyState) : SolanaMonitor :=
  mkMonitor v (isConnected m) (reconnectAttempts m) (maxReconnectAttempts m)
    (reconnectDelay m) (subscriptionIds m) (trackedWallets m) (processedTransactions m).

Definition set_isConnected (m : SolanaMonitor) (v : bool) : SolanaMonitor :=
  mkMonitor (ws m) v (reconnectAttempts m) (maxReconnectAttempts m)
    (reconnectDelay m) (subscriptionIds m) (trackedWallets m) (processedTransactions m).

Definition set_reconnectAttempts (m : SolanaMonitor) (v : Z) : SolanaMonitor :=
  mkMonitor (ws m) (isConnected m) v (maxReconnectAttempts m)
    (reconnectDelay m) (subscriptionIds m) (trackedWallets m) (processedTransactions m).

Definition set_reconnectDelay (m : SolanaMonitor) (v : float) : SolanaMonitor :=
  mkMonitor (ws m) (isConnected m) (reconnectAttempts m) (maxReconnectAttempts m)
    v (subscriptionIds m) (trackedWallets m) (processedTransactions m).

Definition set_subscriptionIds (m : SolanaMonitor) (v : list Z) : SolanaMonitor :=
  mkMonitor (ws m) (isConnected m) (reconnectAttempts m) (maxReconnectAttempts m)
    (reconnectDelay m) v (trackedWallets m) (processedTransactions m).

Definition set_trackedWallets (m : SolanaMonitor) (v : list string) : SolanaMonitor :=
  mkMonitor (ws m) (isConnected m) (reconnectAttempts m) (maxReconnectAttempts m)
    (reconnectDelay m) (subscriptionIds m) v (processedTransactions m).

Definition set_processedTransactions (m : SolanaMonitor) (v : list string) : SolanaMonitor :=
  mkMonitor (ws m) (isConnected m) (reconnectAttempts m) (maxReconnectAttempts m)
    (reconnectDelay m) (subscriptionIds m) (trackedWallets m) v.

(** [Array.prototype.forEach((x, index) => ...)]: the effects of the callback
    on each element, the index counting from [i]. *)
Fixpoint forEach_from {A} (i : Z) (f : A -> Z -> list Effect) (xs : list A) : list Effect :=
  match xs with
  | [] => []
  | x :: rest => f x i ++ forEach_from (i + 1) f rest
  end.

Definition forEach {A} (f : A -> Z -> list Effect) (xs : list A) : list Effect :=
  forEach_from 0 f xs.

(** The frames sent on the socket among the effects, in order. *)
Fixpoint sent (es : list Effect) : list SubscribeMessage :=
  match es with
  | [] => []
  | WsSend message :: rest => message :: sent rest
  | _ :: rest => sent rest
  end.

(** The rows written to the store among the effects, in order. *)
Fixpoint upserts (es : list Effect) : list CandidateWallet :=
  match es with
  | [] => []
  | Upsert _ row _ :: rest => row :: upserts rest
  | _ :: rest => upserts rest
  end.

(** ** Wallet management *)

(** [loadTrackedWallets()], once the store has answered. *)
Definition loadTrackedWallets (m : SolanaMonitor) (reply : LoadReply)
  : SolanaMonitor * list Effect :=
  match reply with
  | LoadError =>
      (m, [ConsoleLog "Loading tracked wallets from Supabase...";
           ConsoleError "Error loading wallets:"])
  | LoadThrows =>
      (m, [ConsoleLog "Loading tracked wallets from Supabase...";
           ConsoleError "Failed to load tracked wallets:"])
  | LoadData wallets =>
      (set_trackedWallets m (JS.from_list String.eqb wallets),
       [ConsoleLog "Loading tracked wallets from Supabase...";
        ConsoleLog "Loaded tracked wallets"])
  end.

(** ** Subscription management *)

Definition subscribeMessage (id : Z) (address : string) : SubscribeMessage :=
  {| sub_jsonrpc := "2.0";
     sub_id := id;
     sub_method := "logsSubscribe";
     sub_mentions := [address];
     sub_commitment := "finalized" |}.

(** [subscribeToLogs()]: it changes no field. *)
Definition subscribeToLogs (m : SolanaMonitor) : list Effect :=
  match ws m with
  | Some OPEN =>
      [ConsoleLog "Subscribing to DEX programs (one at a time due to Chainstack limits)..."]
      ++ forEach (fun programId index =>
                    [ConsoleLog "Subscribing to";
                     WsSend (subscribeMessage (index + 1) programId)])
           ACTIVE_DEX_PROGRAMS
      ++ (if (0 <? List.length (trackedWallets m))%nat
          then forEach (fun walletAddress index =>
                          [ConsoleLog "Subscribing to tracked wallet";
                           WsSend (subscribeMessage
                                     (Z.of_nat (List.length ACTIVE_DEX_PROGRAMS) + index + 1)
                                     walletAddress)])
                 (trackedWallets m)
          else [])
      ++ [ConsoleLog "Sent subscription requests"]
  | _ => [ConsoleError "WebSocket not connected, cannot subscribe"]
  end.

(** ** Connection management *)

(** [handleReconnect()]. *)
Definition handleReconnect (m : SolanaMonitor) : Process * list Effect :=
  if (maxReconnectAttempts m <=? reconnectAttempts m)%Z
  then (Exited 1,
        [ConsoleError "Max reconnection attempts reached. Exiting..."; ProcessExit 1])
  else
    let m1 := set_reconnectAttempts m (reconnectAttempts m + 1) in
    (Running (set_reconnectDelay m1 (JS.Math_min (reconnectDelay m1 * 1.5) 60000)),
     [ConsoleLog "Reconnecting... Attempt"; SetTimeoutConnect (reconnectDelay m1)]).

(** [connect()]; [ctorThrows] tells whether [new WebSocket(url)] throws. *)
Definition connect (ctorThrows : bool) (m : SolanaMonitor) : Process * list Effect :=
  if isConnected m || match ws m with Some CONNECTING => true | _ => false end
  then (Running m, [ConsoleLog "Already connected or connecting"])
  else if ctorThrows
  then
    let '(p, es) := handleReconnect m in
    (p, [ConsoleLog "Connecting to Chainstack WebSocket...";
         ConsoleError "Failed to connect to Chainstack:"] ++ es)
  else (Running (set_ws m (Some CONNECTING)),
        [ConsoleLog "Connecting to Chainstack WebSocket..."; NewWebSocket]).

(** [ws.onopen]: the socket is [OPEN] when the handler runs. *)
Definition onopen (m : SolanaMonitor) : SolanaMonitor * list Effect :=
  let m1 := set_isConnected (set_ws m (Some OPEN)) true in
  let m2 := set_reconnectAttempts m1 0 in
  let m3 := set_reconnectDelay m2 5000 in
  (m3, [ConsoleLog "Connected to Chainstack WebSocket"] ++ subscribeToLogs m3).

(** [ws.onclose]: the socket is [CLOSED] when the handler runs. *)
Definition onclose (m : SolanaMonitor) : Process * list Effect :=
  let m1 := set_isConnected (set_ws m (Some CLOSED)) false in
  let m2 := set_subscriptionIds m1 [] in
  let '(p, es) := handleReconnect m2 in
  (p, [ConsoleLog "WebSocket disconnected:"] ++ es).

(** [ws.onerror]; [rs] is the ready state the socket is in by then. *)
Definition onerror (rs : ReadyState) (m : SolanaMonitor) : SolanaMonitor * list Effect :=
  (set_isConnected (set_ws m (Some rs)) false, [ConsoleError "WebSocket error:"]).

(** ** Transaction processing *)

(** The row [analyzeWalletProfitability] upserts for an address. *)
Definition candidate (walletAddress sig : string) (contextData : option LogContext)
  : CandidateWallet :=
  {| wallet_address := walletAddress;
     discovery_source := "DEX_activity";
     discovery_type := "jupiter_swap";
     initial_score := 50;
     confidence := 0.5;
     status := "pending";
     metadata_signature := sig;
     metadata_slot := match contextData with Some c => slot c | None => None end |}.

Section Pipeline.

(** The store's answer to the upsert of a row. *)
Variable storeReply : CandidateWallet -> StoreReply.

(** [analyzeWalletProfitability(walletAddress, signature, contextData)]. *)
Definition analyzeWalletProfitability
    (walletAddress sig : string) (contextData : option LogContext) : list Effect :=
  let row := candidate walletAddress sig contextData in
  [ConsoleLog "Analyzing wallet profitability:";
   Upsert "candidate_wallets" row "wallet_address";
   match storeReply row with
   | StoreOk => ConsoleLog "Added candidate wallet:"
   | StoreError => ConsoleError "Error storing candidate wallet:"
   | StoreThrows => ConsoleError "Error analyzing wallet profitability:"
   end].

(** [quickWalletDiscovery(signature, valueData, contextData)]. *)
Definition quickWalletDiscovery
    (sig : string) (valueData : LogValue) (contextData : option LogContext)
  : list Effect :=
  let lines := match logs valueData with Some l => l | None => [] end in
  let walletAddresses := extractWalletAddresses lines in
  if (0 <? List.length walletAddresses)%nat
  then ConsoleLog "Found wallets in transaction:"
       :: flat_map (fun walletAddress =>
                      analyzeWalletProfitability walletAddress sig contextData)
            walletAddresses
  else [].

(** [processTransaction(signature, valueData, contextData)]. *)
Definition processTransaction
    (sig : string) (valueData : LogValue) (contextData : option LogContext)
  : list Effect :=
  ConsoleLog "Processing transaction:" :: quickWalletDiscovery sig valueData contextData.

(** [logEntry?.value?.signature]. *)
Definition entry_signature (logEntry : option LogEntry) : option string :=
  match logEntry with
  | Some e => match value e with Some v => signature v | None => None end
  | None => None
  end.

(** The cache after [add(signature)] and the clean-up that follows it. *)
Definition remember (cache : list string) (sig : string) : list string :=
  let added := JS.add String.eqb cache sig in
  if (1000 <? List.length added)%nat
  then JS.from_list String.eqb (JS.slice_last 500 added)
  else added.

(** [handleLogNotification(logEntry)].  The fields are read and written
    before the first [await]; what runs after it touches no field.  A
    missing [logs] makes [isDEXTransaction] throw, which the [catch]
    reports. *)
Definition handleLogNotification (m : SolanaMonitor) (logEntry : option LogEntry)
  : SolanaMonitor * list Effect :=
  let unexpected := (m, [ConsoleLog "Unexpected log entry structure:"]) in
  match logEntry with
  | Some {| context := contextData; value := Some valueData |} =>
      match signature valueData with
      | Some sig =>
          if negb (JS.truthy_str sig) then unexpected
          else if JS.has String.eqb (processedTransactions m) sig then (m, [])
          else
            let m' :=
              set_processedTransactions m (remember (processedTransactions m) sig) in
            match logs valueData with
            | Some lines =>
                if isDEXTransaction lines
                then (m', [ConsoleLog "New transaction:";
                           ConsoleLog "DEX transaction detected:"]
                          ++ processTransaction sig valueData contextData)
                else (m', [ConsoleLog "New transaction:"])
            | None =>
                (m', [ConsoleLog "New transaction:";
                      ConsoleError "Error handling log notification:"])
            end
      | None => unexpected
      end
  | _ => unexpected
  end.

(** ** Message handling *)

(** [handleMessage(data)]; [None] is a frame on which [JSON.parse] (or the
    first property read) throws. *)
Definition handleMessage (m : SolanaMonitor) (data : option Message)
  : SolanaMonitor * list Effect :=
  match data with
  | None => (m, [ConsoleError "Error parsing WebSocket message:"])
  | Some message =>
      let isNotification :=
        match msg_method message with
        | Some name => name =? "logsNotification"
        | None => false
        end in
      let received :=
        if isNotification then [] else [ConsoleLog "WebSocket message received:"] in
      if JS.truthy_opt JS.truthy_num (msg_id message)
         && JS.truthy_opt JS.truthy_num (msg_result message)
      then
        match msg_result message with
        | Some result =>
            (set_subscriptionIds m (JS.add Z.eqb (subscriptionIds m) result),
             received ++ [ConsoleLog "Subscribed to logs. Subscription ID"])
        | None => (m, received)
        end
      else if JS.truthy_opt JS.truthy_num (msg_id message)
              && JS.truthy_opt (fun _ => true) (msg_error message)
      then (m, received ++ [ConsoleError "Subscription failed:"])
      else if isNotification && JS.truthy_opt (fun _ => true) (msg_params message)
      then
        match msg_params message with
        | Some params =>
            let '(m', es) := handleLogNotification m (params_result params) in
            (m', received ++ es)
        | None => (m, received)
        end
      else (m, received)
  end.

(** [refreshTrackedWallets()], once the store has answered. *)
Definition refreshTrackedWallets (m : SolanaMonitor) (reply : LoadReply)
  : SolanaMonitor * list Effect :=
  let '(m', es) := loadTrackedWallets m reply in
  (m', [ConsoleLog "Refreshing tracked wallets..."] ++ es
       ++ (if isConnected m' then subscribeToLogs m' else [])).

(** ** The event loop *)

(** What can happen to a running monitor: a call of [connect] (by [main] or
    by the reconnect timer), the socket's four events, the answer to the
    wallet load started by the constructor, and a periodic refresh. *)
Inductive Event :=
| Connect (ctorThrows : bool)
| SocketOpen
| SocketMessage (data : option Message)
| SocketClose
| SocketError (rs : ReadyState)
| WalletsLoaded (reply : LoadReply)
| Refresh (reply : LoadReply).

Definition running (r : SolanaMonitor * list Effect) : Process * list Effect :=
  (Running (fst r), snd r).

Definition step (m : SolanaMonitor) (e : Event) : Process * list Effect :=
  match e with
  | Connect ctorThrows => connect ctorThrows m
  | SocketOpen => running (onopen m)
  | SocketMessage data => running (handleMessage m data)
  | SocketClose => onclose m
  | SocketError rs => running (onerror rs m)
  | WalletsLoaded reply => running (loadTrackedWallets m reply)
  | Refresh reply => running (refreshTrackedWallets m reply)
  end.

(** The monitor after a sequence of events, with everything it did; nothing
    happens once the process has exited. *)
Fixpoint run (p : Process) (events : list Event) : Process * list Effect :=
  match p, events with
  | Running m, e :: rest =>
      let '(p', es) := step m e in
      let '(p'', es') := run p' rest in
      (p'', es ++ es')
  | _, _ => (p, [])
  end.

(** The monitors a started process can be in. *)
Definition reachable (m : SolanaMonitor) : Prop :=
  exists events, fst (run (Running constructor) events) = Running m.

End Pipeline.

(** ** Notions used in the statements *)

(** The confirmation [{id: R, result: S}] of request [R]. *)
Definition ack (R S : Z) : Message :=
  {| msg_id := Some R; msg_result := Some S; msg_error := None;
     msg_method := None; msg_params := None |}.

(** The payload [{context: {slot}, value: {signature, logs}}]. *)
Definition logEntry_of (sig : string) (lines : list string) (s : Z) : option LogEntry :=
  Some {| context := Some {| slot := Some s |};
          value := Some {| signature := Some sig; logs := Some lines |} |}.

(** The push [{method: "logsNotification", params: {result}}]. *)
Definition notification (logEntry : option LogEntry) : option Message :=
  Some {| msg_id := None; msg_result := None; msg_error := None;
          msg_method := Some "logsNotification";
          msg_params := Some {| params_result := logEntry |} |}.

(** The requests [subscribeMessage i x], [subscribeMessage (i+1) y], ... *)
Fixpoint numbered (i : Z) (topics : list string) : list SubscribeMessage :=
  match topics with
  | [] => []
  | t :: rest => subscribeMessage i t :: numbered (i + 1) rest
  end.

(** The integers [i], [i+1], ..., [n] of them. *)
Fixpoint Zseq (i : Z) (n : nat) : list Z :=
  match n with
  | O => []
  | S k => i :: Zseq (i + 1) k
  end.

(** The delays of the reconnect timers among the effects, in order. *)
Fixpoint scheduled (es : list Effect) : list float :=
  match es with
  | [] => []
  | SetTimeoutConnect delay :: rest => delay :: scheduled rest
  | _ :: rest => scheduled rest
  end.

(** The values [reconnectDelay] goes through from 5000. *)
Definition backoff_ladder : list float :=
  [5000; 7500; 11250; 16875; 25312.5; 37968.75; 56953.125; 60000]%float.

(** One failed connection attempt as the socket reports it. *)
Definition failed_attempt : list Event :=
  [Connect false; SocketError CLOSING; SocketClose].

(** Every character of [s] is in the address alphabet. *)
Fixpoint all_class (s : string) : bool :=
  match s with
  | EmptyString => true
  | String c s' => WalletRegex.in_class c && all_class s'
  end.

(** [s] is empty or its last character is outside the alphabet. *)
Fixpoint ends_outside (s : string) : bool :=
  match s with
  | EmptyString => true
  | String c EmptyString => negb (WalletRegex.in_class c)
  | String _ s' => ends_outside s'
  end.

(** [s] is empty or its first character is outside the alphabet. *)
Definition starts_outside (s : string) : bool :=
  match s with
  | EmptyString => true
  | String c _ => negb (WalletRegex.in_class c)
  end.

(** [t] is a maximal run of alphabet characters of [line]. *)
Definition MaximalRun (t line : string) : Prop :=
  exists pre post,
    line = (pre ++ t ++ post)%string /\ t <> "" /\
    all_class t = true /\ ends_outside pre = true /\ starts_outside post = true.

(** The [n]-th of a family of distinct transaction signatures. *)
Definition sig_n (n : nat) : string :=
  ("sig" ++ NilEmpty.string_of_uint (Nat.to_uint n))%string.

(** The frames announcing the transactions [sig_n 0], ..., [sig_n (n-1)],
    none of which mentions a DEX. *)
Definition novel_notifications (n : nat) : list Event :=
  map (fun k => SocketMessage (notification (logEntry_of (sig_n k) [] 0))) (seq 0 n).

(** The monitor of a process, [constructor] once it has exited. *)
Definition monitor_of (p : Process) : SolanaMonitor :=
  match p with
  | Running m => m
  | Exited _ => constructor
  end.

(** The number of alphabet characters [s] starts with. *)
Fixpoint leading_class (s : string) : nat :=
  match s with
  | EmptyString => 0
  | String c s' => if WalletRegex.in_class c then S (leading_class s') else 0
  end.

(** The string made of [n] times the character [c]. *)
Fixpoint replicate (n : nat) (c : ascii) : string :=
  match n with
  | O => EmptyString
  | S k => String c (replicate k c)
  end.

(** [s] without its first [n] characters. *)
Fixpoint drop (n : nat) (s : string) : string :=
  match n, s with
  | S k, String _ s' => drop k s'
  | _, _ => s
  end.

(** The tokens the regular expression cuts out of a run of alphabet
    characters, from left to right: none when the run is shorter than 32;
    otherwise its first 44 characters (all of it when it has no more), and
    then the tokens of what is left after them.  [fuel] bounds the number of
    tokens. *)
Fixpoint chunks_upto (fuel : nat) (run : string) : list string :=
  match fuel with
  | O => []
  | S k =>
      if (String.length run <? 32)%nat then []
      else substring 0 44 run :: chunks_upto k (drop 44 run)
  end.

Definition chunks (run : string) : list string :=
  chunks_upto (String.length run) run.

(** What C8 says of the extractor: its result is the set of the maximal
    alphabet runs of the lines whose length is between 32 and 44. *)
Definition extracts_maximal_runs : Prop :=
  forall (lines : list string) (a : string),
    In a (extractWalletAddresses lines) <->
    exists line, In line lines /\ MaximalRun a line
                 /\ (32 <= String.length a <= 44)%nat.

(** What holds of every monitor a started process goes through. *)
Definition invariant (m : SolanaMonitor) : Prop :=
  NoDup (processedTransactions m)
  /\ (List.length (processedTransactions m) <= 1000)%nat
  /\ In (reconnectDelay m) backoff_ladder
  /\ (0 <= reconnectAttempts m <= 10)%Z
  /\ maxReconnectAttempts m = 10%Z.

(** A map from request ids to topics read off the monitor's fields holds what
    [subscribeToLogs] has sent (the call leaves every field as it was). *)
Definition records_pending (pending : SolanaMonitor -> Z -> option string) : Prop :=
  forall m req,
    In req (sent (subscribeToLogs m)) ->
    exists T, sub_mentions req = [T] /\ pending m (sub_id req) = Some T.

(** A confirmation fills the topic's entry and drops the pending request. *)
Definition ack_moves_pending_to_confirmed
    (confirmed : SolanaMonitor -> string -> option Z)
    (pending : SolanaMonitor -> Z -> option string) : Prop :=
  forall storeReply m R T S,
    pending m R = Some T ->
    let m' := fst (handleMessage storeReply m (Some (ack R S))) in
    confirmed m' T = Some S /\ pending m' R = None.

(** ** Start-up *)

(** The variables the service refuses to start without. *)
Definition requiredEnvVars : list string :=
  ["SUPABASE_URL"; "SUPABASE_SERVICE_ROLE_KEY"; "CHAINSTACK_WSS_URL"].

(** The validation loop over [vars]: the first variable that is unset or
    empty ends the process with code 1. *)
Fixpoint validateEnv (env : string -> option string) (vars : list string) : list Effect :=
  match vars with
  | [] => []
  | envVar :: rest =>
      if negb (JS.truthy_opt JS.truthy_str (env envVar))
      then [ConsoleError "Missing required environment variable:"; ProcessExit 1]
      else validateEnv env rest
  end.

(** ** Status *)

(** The object [getStatus()] returns. *)
Record Status := mkStatus {
  status_connected : bool;
  status_trackedWallets : nat;
  status_subscriptionIds : list Z;
  status_reconnectAttempts : Z;
  status_processedTransactions : nat
}.

Definition getStatus (m : SolanaMonitor) : Status :=
  {| status_connected := isConnected m;
     status_trackedWallets := List.length (trackedWallets m);
     status_subscriptionIds := subscriptionIds m;
     status_reconnectAttempts := reconnectAttempts m;
     status_processedTransactions := List.length (processedTransactions m) |}.

(** ** Analysis of a fetched transaction *)

(** [detectDEXProgram(accountKeys)]: the entries of [DEX_PROGRAM_IDS] are
    tried in the order of the object literal. *)
Definition detectDEXProgram (accountKeys : list string) : option string :=
  find (fun programId => JS.has String.eqb accountKeys programId) ACTIVE_DEX_PROGRAMS.

(** [transaction.blockTime]: missing, [null], or a number of seconds. *)
Inductive BlockTime :=
| BlockTimeMissing
| BlockTimeNull
| BlockTimeSeconds (seconds : Z).

(** The instant [new Date(blockTime * 1000)] in milliseconds, [None] when the
    date is invalid, on which [toISOString()] throws a [RangeError]. *)
Definition date_ms (blockTime : BlockTime) : option Z :=
  match blockTime with
  | BlockTimeMissing => None
  | BlockTimeNull => Some 0%Z
  | BlockTimeSeconds seconds =>
      if (Z.abs (seconds * 1000) <=? 8640000000000000)%Z
      then Some (seconds * 1000)%Z
      else None
  end.

(** The properties of a transaction that the analysis reads:
    [signature], [slot], [blockTime], [meta.err] (whether it is truthy) and
    [transaction.message.accountKeys]. *)
Record TxMeta := mkTxMeta { meta_failed : bool }.

Record Transaction := mkTransaction {
  tx_signature : option string;
  tx_slot : option Z;
  tx_blockTime : BlockTime;
  tx_meta : option TxMeta;
  tx_accountKeys : option (list string)
}.

(** The row upserted into [trades]; [trade_timestamp] is the instant whose
    ISO text the code stores. *)
Record TradeRow := mkTradeRow {
  trade_wallet_address : string;
  trade_transaction_signature : option string;
  trade_block_number : option Z;
  trade_timestamp : Z;
  trade_dex_program_id : option string;
  trade_status : string;
  trade_raw_data : Transaction
}.

(** The row [checkForWalletDiscovery] upserts into [candidate_wallets]. *)
Record DiscoveredWallet := mkDiscoveredWallet {
  found_wallet_address : string;
  found_discovery_method : string;
  found_confidence_score : float;
  found_first_seen_tx : option string;
  found_first_seen_at : Z;
  found_dex_program : string;
  found_metadata_slot : option Z;
  found_metadata_accountCount : nat;
  found_metadata_monitor_source : string
}.

(** What the analysis does: console lines and the two kinds of store write,
    each with its conflict key. *)
Inductive AnalysisEffect :=
| AnalysisLog (text : string)
| AnalysisError (text : string)
| UpsertTrade (row : TradeRow) (onConflict : string)
| UpsertDiscovered (row : DiscoveredWallet) (onConflict : string).

(** The rows written to [trades] and to [candidate_wallets], in order. *)
Fixpoint trades (es : list AnalysisEffect) : list TradeRow :=
  match es with
  | [] => []
  | UpsertTrade row _ :: rest => row :: trades rest
  | _ :: rest => trades rest
  end.

Fixpoint discovered (es : list AnalysisEffect) : list DiscoveredWallet :=
  match es with
  | [] => []
  | UpsertDiscovered row _ :: rest => row :: discovered rest
  | _ :: rest => discovered rest
  end.

Section Analysis.

(** The store's answers to the two upserts. *)
Variable tradeReply : TradeRow -> StoreReply.
Variable discoveredReply : DiscoveredWallet -> StoreReply.

(** [storeTradeData(transaction, wallets)]: the loop is inside the [try], so
    the first exception (an invalid date, missing account keys, a throwing
    store call) ends it. *)
Fixpoint storeTradeData (transaction : Transaction) (wallets : list string)
  : list AnalysisEffect :=
  match wallets with
  | [] => []
  | walletAddress :: rest =>
      match date_ms (tx_blockTime transaction), tx_accountKeys transaction with
      | Some instant, Some accountKeys =>
          let tradeData :=
            {| trade_wallet_address := walletAddress;
               trade_transaction_signature := tx_signature transaction;
               trade_block_number := tx_slot transaction;
               trade_timestamp := instant;
               trade_dex_program_id := detectDEXProgram accountKeys;
               trade_status := "detected";
               trade_raw_data := transaction |} in
          match tradeReply tradeData with
          | StoreOk =>
              UpsertTrade tradeData "transaction_signature,wallet_address"
              :: AnalysisLog "Stored trade data for wallet:"
              :: storeTradeData transaction rest
          | StoreError =>
              UpsertTrade tradeData "transaction_signature,wallet_address"
              :: AnalysisError "Error storing trade data:"
              :: storeTradeData transaction rest
          | StoreThrows =>
              [UpsertTrade tradeData "transaction_signature,wallet_address";
               AnalysisError "Error in storeTradeData:"]
          end
      | _, _ => [AnalysisError "Error in storeTradeData:"]
      end
  end.

(** [checkForWalletDiscovery(transaction)]. *)
Definition checkForWalletDiscovery (m : SolanaMonitor) (transaction : Transaction)
  : list AnalysisEffect :=
  let accountKeys :=
    match tx_accountKeys transaction with Some keys => keys | None => [] end in
  match detectDEXProgram accountKeys with
  | None => []
  | Some dexProgram =>
      if negb (JS.truthy_str dexProgram) then []
      else
        match accountKeys with
        | [] => []
        | potentialWallet :: _ =>
            if negb (JS.truthy_str potentialWallet)
               || JS.has String.eqb (trackedWallets m) potentialWallet
            then []
            else
              match date_ms (tx_blockTime transaction) with
              | None => [AnalysisError "Error in wallet discovery:"]
              | Some instant =>
                  let row :=
                    {| found_wallet_address := potentialWallet;
                       found_discovery_method := "chainstack_monitor";
                       found_confidence_score := 0.5;
                       found_first_seen_tx := tx_signature transaction;
                       found_first_seen_at := instant;
                       found_dex_program := dexProgram;
                       found_metadata_slot := tx_slot transaction;
                       found_metadata_accountCount := List.length accountKeys;
                       found_metadata_monitor_source := "fly_io" |} in
                  match discoveredReply row with
                  | StoreOk =>
                      [UpsertDiscovered row "wallet_address";
                       AnalysisLog "New candidate wallet discovered:"]
                  | StoreError => [UpsertDiscovered row "wallet_address"]
                  | StoreThrows =>
                      [UpsertDiscovered row "wallet_address";
                       AnalysisError "Error in wallet discovery:"]
                  end
              end
        end
  end.

(** [analyzeAndStoreTransaction(transaction)].  A missing [meta], missing
    account keys, and a missing [signature] when a tracked wallet is involved
    (its [substring] is taken for the console) throw into the [catch]. *)
Definition analyzeAndStoreTransaction (m : SolanaMonitor) (transaction : Transaction)
  : list AnalysisEffect :=
  match tx_meta transaction with
  | None => [AnalysisError "Error analyzing transaction:"]
  | Some meta =>
      if meta_failed meta
      then [AnalysisLog "Transaction failed, skipping analysis"]
      else
        match tx_accountKeys transaction with
        | None => [AnalysisError "Error analyzing transaction:"]
        | Some accountKeys =>
            let involvedWallets :=
              filter (fun account => JS.has String.eqb (trackedWallets m) account)
                accountKeys in
            if (0 <? List.length involvedWallets)%nat
            then
              match tx_signature transaction with
              | None => [AnalysisError "Error analyzing transaction:"]
              | Some _ =>
                  AnalysisLog "Tracked wallet activity:"
                  :: storeTradeData transaction involvedWallets
                  ++ checkForWalletDiscovery m transaction
              end
            else checkForWalletDiscovery m transaction
        end
  end.

End Analysis.

(** ** More notions used in the statements *)

(** The tracked wallets and the subscription ids are sets. *)
Definition sets_wellformed (m : SolanaMonitor) : Prop :=
  NoDup (trackedWallets m) /\ NoDup (subscriptionIds m).

(** The monitor after the payloads [entries] were handled one after the
    other. *)
Definition deliver (storeReply : CandidateWallet -> StoreReply)
    (m : SolanaMonitor) (entries : list (option LogEntry)) : SolanaMonitor :=
  fold_left (fun m0 logEntry => fst (handleLogNotification storeReply m0 logEntry))
    entries m.

(** The sum of the lengths of the strings of a list. *)
Fixpoint total_length (tokens : list string) : nat :=
  match tokens with
  | [] => 0
  | t :: rest => String.length t + total_length rest
  end.

(** ** Facts about substrings *)

Lemma prefix_app_iff (sub s : string) :
  String.prefix sub s = true <-> exists post, s = (sub ++ post)%string.
Proof.
  revert sub; induction s as [|d s IH]; intros [|c sub]; simpl.
  - split; [intros _; now exists "" | reflexivity].
  - split; [discriminate | intros [post Hp]; discriminate].
  - split; [intros _; now exists (String d s) | reflexivity].
  - destruct (ascii_dec c d) as [->|Hne].
    + rewrite IH. split; intros [post Hp]; exists post.
      * now rewrite Hp.
      * now inversion Hp.
    + split; [discriminate | intros [post Hp]; inversion Hp; congruence].
Qed.

Lemma includes_Substring (s sub : string) :
  JS.includes s sub = true <-> JS.Substring sub s.
Proof.
  unfold JS.Substring. induction s as [|c s IH].
  - cbn [JS.includes]. rewrite orb_false_r, prefix_app_iff. split.
    + intros [post Hp]. now exists "", post.
    + intros [pre [post Hp]]. destruct pre; simpl in Hp.
      * now exists post.
      * discriminate.
  - cbn [JS.includes]. rewrite orb_true_iff, IH, prefix_app_iff. split.
    + intros [[post Hp]|[pre [post Hp]]].
      * now exists "", post.
      * exists (String c pre), post. simpl. now rewrite Hp.
    + intros [pre [post Hp]]. destruct pre as [|d pre]; simpl in Hp.
      * left. now exists post.
      * right. inversion Hp; subst. now exists pre, post.
Qed.

Lemma some_exists {A} (p : A -> bool) (xs : list A) :
  JS.some p xs = true <-> exists x, In x xs /\ p x = true.
Proof. unfold JS.some. apply existsb_exists. Qed.

(** C7: the classifier answers [true] exactly when some log line contains one
    of the six configured program identifiers, or one of the tokens "swap",
    "trade", "exchange", as a substring; in particular it answers [false] on
    the empty list of lines. *)
Theorem isDEXTransaction_iff :
  List.length ACTIVE_DEX_PROGRAMS = 6%nat /\
  isDEXTransaction [] = false /\
  forall logs : list string,
    isDEXTransaction logs = true <->
    exists log, In log logs /\
      ((exists programId, In programId ACTIVE_DEX_PROGRAMS /\ JS.Substring programId log)
       \/ JS.Substring "swap" log
       \/ JS.Substring "trade" log
       \/ JS.Substring "exchange" log).
Proof.
  split; [reflexivity | split; [reflexivity |]].
  intros logs. unfold isDEXTransaction. rewrite some_exists.
  split.
  - intros [log [Hin Hp]]. exists log. split; [exact Hin |].
    rewrite !orb_true_iff, some_exists, !includes_Substring in Hp.
    destruct Hp as [[[[p [Hp1 Hp2]]|H]|H]|H]; auto.
    left. exists p. now rewrite <- includes_Substring.
  - intros [log [Hin Hp]]. exists log. split; [exact Hin |].
    rewrite !orb_true_iff, some_exists, !includes_Substring.
    destruct Hp as [[p [Hp1 Hp2]]|[H|[H|H]]]; auto.
    left; left; left. exists p. now rewrite includes_Substring.
Qed.

(** ** Subscription requests *)

Lemma sent_app (es1 es2 : list Effect) : sent (es1 ++ es2) = sent es1 ++ sent es2.
Proof.
  induction es1 as [|e es1 IH]; [reflexivity |].
  destruct e; simpl; rewrite ?IH; reflexivity.
Qed.

Lemma sent_forEach_from (text : string) (mk : Z -> Z) (topics : list string) :
  (forall i, mk (i + 1)%Z = (mk i + 1)%Z) ->
  forall i,
    sent (forEach_from i
            (fun x index => [ConsoleLog text; WsSend (subscribeMessage (mk index) x)])
            topics)
    = numbered (mk i) topics.
Proof.
  intros Hmk. induction topics as [|t rest IH]; intros i; simpl; [reflexivity |].
  now rewrite IH, Hmk.
Qed.

Lemma numbered_app (xs ys : list string) :
  forall i, numbered i (xs ++ ys)
            = numbered i xs ++ numbered (i + Z.of_nat (List.length xs)) ys.
Proof.
  induction xs as [|x xs IH]; intros i; cbn [numbered app List.length].
  - now rewrite Z.add_0_r.
  - rewrite IH, Nat2Z.inj_succ.
    replace (i + Z.succ (Z.of_nat (List.length xs)))%Z
      with (i + 1 + Z.of_nat (List.length xs))%Z by lia.
    reflexivity.
Qed.

Lemma numbered_length (xs : list string) :
  forall i, List.length (numbered i xs) = List.length xs.
Proof. induction xs; intros i; simpl; [reflexivity | now rewrite IHxs]. Qed.

Lemma numbered_mentions (xs : list string) :
  forall i, map sub_mentions (numbered i xs) = map (fun t => [t]) xs.
Proof. induction xs; intros i; simpl; [reflexivity | now rewrite IHxs]. Qed.

Lemma numbered_ids (xs : list string) :
  forall i, map sub_id (numbered i xs) = Zseq i (List.length xs).
Proof. induction xs; intros i; simpl; [reflexivity | now rewrite IHxs]. Qed.

Lemma Zseq_lower (n : nat) : forall i x, In x (Zseq i n) -> (i <= x)%Z.
Proof.
  induction n as [|n IH]; intros i x; simpl; [tauto |].
  intros [<-|Hin]; [lia | apply IH in Hin; lia].
Qed.

Lemma Zseq_NoDup (n : nat) : forall i, NoDup (Zseq i n).
Proof.
  induction n as [|n IH]; intros i; simpl; constructor.
  - intros Hin. apply Zseq_lower in Hin. lia.
  - apply IH.
Qed.

(** What [subscribeToLogs] sends on an open socket: one request per program,
    then one per tracked wallet, numbered from 1. *)
Lemma sent_subscribeToLogs (m : SolanaMonitor) :
  ws m = Some OPEN ->
  sent (subscribeToLogs m) = numbered 1 (ACTIVE_DEX_PROGRAMS ++ trackedWallets m).
Proof.
  intros Hopen. unfold subscribeToLogs, forEach. rewrite Hopen.
  rewrite !sent_app, numbered_app.
  rewrite (sent_forEach_from _ (fun index => (index + 1)%Z)) by (intros; lia).
  simpl (sent [ConsoleLog _]). rewrite app_nil_r. cbn [app]. f_equal.
  destruct (trackedWallets m) as [|w rest] eqn:Hw; [reflexivity |].
  cbn [List.length Nat.ltb Nat.leb].
  rewrite (sent_forEach_from _
             (fun index => (Z.of_nat (List.length ACTIVE_DEX_PROGRAMS) + index + 1)%Z))
    by (intros; lia).
  reflexivity.
Qed.

(** C1: on an open socket one call of [subscribeToLogs] sends exactly
    [P + W] subscribe requests, where [P] is the number of DEX programs and
    [W] the number of tracked wallets; the i-th request mentions exactly the
    i-th topic and nothing else, and no two requests of the call share an id. *)
Theorem subscribeToLogs_one_request_per_topic (m : SolanaMonitor) :
  ws m = Some OPEN ->
  let requests := sent (subscribeToLogs m) in
  List.length requests
    = (List.length ACTIVE_DEX_PROGRAMS + List.length (trackedWallets m))%nat
  /\ map sub_mentions requests
     = map (fun topic => [topic]) (ACTIVE_DEX_PROGRAMS ++ trackedWallets m)
  /\ Forall (fun request => List.length (sub_mentions request) = 1%nat) requests
  /\ NoDup (map sub_id requests).
Proof.
  intros Hopen requests. subst requests. rewrite (sent_subscribeToLogs m Hopen).
  split; [| split; [| split]].
  - now rewrite numbered_length, length_app.
  - apply numbered_mentions.
  - apply Forall_forall. intros r Hr.
    apply (in_map sub_mentions) in Hr. rewrite numbered_mentions in Hr.
    apply in_map_iff in Hr. destruct Hr as [t [<- _]]. reflexivity.
  - rewrite numbered_ids. apply Zseq_NoDup.
Qed.

(** The monitor right after its socket opened, with two tracked wallets. *)
Lemma subscribeToLogs_one_request_per_topic_witness :
  let m := set_trackedWallets (fst (onopen constructor)) [RAYDIUM; "wallet-b"] in
  List.length (sent (subscribeToLogs m)) = 8%nat
  /\ NoDup (map sub_id (sent (subscribeToLogs m))).
Proof.
  intros m.
  destruct (subscribeToLogs_one_request_per_topic m eq_refl) as [Hlen [_ [_ Hids]]].
  split; [exact Hlen | exact Hids].
Defined.

(** ** Request ids across calls *)

Lemma sent_loadTrackedWallets (m : SolanaMonitor) (reply : LoadReply) :
  sent (snd (loadTrackedWallets m reply)) = []
  /\ ws (fst (loadTrackedWallets m reply)) = ws m
  /\ isConnected (fst (loadTrackedWallets m reply)) = isConnected m.
Proof. destruct reply; repeat split. Qed.

(** C6, as the code has it: each call of [subscribeToLogs] numbers its
    requests 1, 2, ..., N in the order it sends them, so within one call the
    ids are distinct and increasing; the call made when the socket opens and
    every call made by [refreshTrackedWallets] while connected start again
    at 1. *)
Theorem subscribe_ids_restart_at_one (m : SolanaMonitor) (reply : LoadReply) :
  ws m = Some OPEN ->
  isConnected m = true ->
  map sub_id (sent (snd (onopen m)))
    = Zseq 1 (List.length ACTIVE_DEX_PROGRAMS + List.length (trackedWallets m))
  /\ map sub_id (sent (snd (refreshTrackedWallets m reply)))
     = Zseq 1 (List.length ACTIVE_DEX_PROGRAMS
               + List.length (trackedWallets (fst (refreshTrackedWallets m reply)))).
Proof.
  intros Hopen Hconn. split.
  - unfold onopen. cbn [snd]. rewrite sent_app. cbn [sent app].
    rewrite sent_subscribeToLogs by reflexivity.
    now rewrite numbered_ids, length_app.
  - unfold refreshTrackedWallets.
    destruct (sent_loadTrackedWallets m reply) as [Hs [Hws Hc]].
    destruct (loadTrackedWallets m reply) as [m' es] eqn:Hload.
    cbn [fst snd] in *. rewrite !sent_app, Hs, Hc, Hconn. cbn [sent app].
    rewrite sent_subscribeToLogs by (rewrite Hws; exact Hopen).
    now rewrite numbered_ids, length_app.
Qed.

(** A connected monitor whose refresh finds one wallet. *)
Lemma subscribe_ids_restart_at_one_witness :
  let m := fst (onopen constructor) in
  map sub_id (sent (snd (onopen m))) = [1; 2; 3; 4; 5; 6]%Z
  /\ map sub_id (sent (snd (refreshTrackedWallets m (LoadData [RAYDIUM]))))
     = [1; 2; 3; 4; 5; 6; 7]%Z.
Proof.
  intros m.
  exact (subscribe_ids_restart_at_one m (LoadData [RAYDIUM]) eq_refl eq_refl).
Defined.

(** C6, as stated, fails: the socket opens and a refresh follows while it is
    still open; the requests sent in this one epoch repeat the ids 1 to 6. *)
Lemma request_ids_reused_within_epoch :
  let es := snd (run (fun _ => StoreOk) (Running constructor)
                   [Connect false; SocketOpen; Refresh (LoadData [])]) in
  map sub_id (sent es) = [1; 2; 3; 4; 5; 6; 1; 2; 3; 4; 5; 6]%Z
  /\ ~ NoDup (map sub_id (sent es)).
Proof.
  intros es. assert (Hids : map sub_id (sent es) = [1; 2; 3; 4; 5; 6; 1; 2; 3; 4; 5; 6]%Z)
    by reflexivity.
  split; [exact Hids |].
  rewrite Hids. intros Hnd. inversion Hnd as [|x l Hnotin _]; subst.
  apply Hnotin. simpl. tauto.
Qed.

(** ** Subscription confirmations *)

(** C2, as the code has it: a confirmation with a non-zero id and a non-zero
    result [S] adds [S] to the set [subscriptionIds] and changes nothing
    else; the monitor keeps no map from request ids to topics and no map
    from topics to subscription ids. *)
Theorem ack_adds_subscription_id
    (storeReply : CandidateWallet -> StoreReply) (m : SolanaMonitor) (R S : Z) :
  R <> 0%Z ->
  S <> 0%Z ->
  handleMessage storeReply m (Some (ack R S))
    = (set_subscriptionIds m (JS.add Z.eqb (subscriptionIds m) S),
       [ConsoleLog "WebSocket message received:";
        ConsoleLog "Subscribed to logs. Subscription ID"])
  /\ In S (subscriptionIds (fst (handleMessage storeReply m (Some (ack R S))))).
Proof.
  intros HR HS.
  assert (Heq : handleMessage storeReply m (Some (ack R S))
                = (set_subscriptionIds m (JS.add Z.eqb (subscriptionIds m) S),
                   [ConsoleLog "WebSocket message received:";
                    ConsoleLog "Subscribed to logs. Subscription ID"])).
  { unfold handleMessage, ack, JS.truthy_opt, JS.truthy_num. cbn [msg_id msg_result msg_method].
    apply Z.eqb_neq in HR, HS. now rewrite HR, HS. }
  split; [exact Heq |].
  rewrite Heq. cbn [fst set_subscriptionIds subscriptionIds].
  unfold JS.add. destruct (JS.has Z.eqb (subscriptionIds m) S) eqn:Hhas.
  - unfold JS.has in Hhas. apply existsb_exists in Hhas.
    destruct Hhas as [x [Hin Hx]]. apply Z.eqb_eq in Hx. now subst.
  - apply in_or_app. right. now left.
Qed.

Lemma ack_adds_subscription_id_witness :
  subscriptionIds
    (fst (handleMessage (fun _ => StoreOk) (fst (onopen constructor)) (Some (ack 1 100))))
  = [100%Z].
Proof.
  pose proof (ack_adds_subscription_id (fun _ => StoreOk) (fst (onopen constructor)) 1 100
                ltac:(discriminate) ltac:(discriminate)) as [Heq _].
  rewrite Heq. reflexivity.
Defined.

(** C2, as stated, fails: no map from request ids to topics and no map from
    topics to subscription ids can be read off the monitor's fields.  After
    the socket opened, request 1 is pending; its confirmation must remove it;
    a re-subscription then sends request 1 again without touching a field. *)
Lemma no_pending_map_in_the_monitor :
  ~ exists confirmed pending,
      records_pending pending /\ ack_moves_pending_to_confirmed confirmed pending.
Proof.
  intros (confirmed & pending & Hrec & Hack).
  set (m0 := fst (onopen constructor)).
  set (m1 := fst (handleMessage (fun _ => StoreOk) m0 (Some (ack 1 100)))).
  destruct (Hrec m0 (subscribeMessage 1 RAYDIUM)) as [T [HT Hp0]]; [simpl; tauto |].
  destruct (Hack (fun _ => StoreOk) m0 _ _ 100%Z Hp0) as [_ Hgone].
  destruct (Hrec m1 (subscribeMessage 1 RAYDIUM)) as [T' [_ Hp1]]; [simpl; tauto |].
  change (pending m1 1%Z = None) in Hgone.
  change (pending m1 1%Z = Some T') in Hp1.
  rewrite Hgone in Hp1. discriminate.
Qed.

(** ** Sets as lists without repetition *)

Lemma has_In (s : list string) (x : string) :
  JS.has String.eqb s x = true <-> In x s.
Proof.
  unfold JS.has. rewrite existsb_exists. split.
  - intros [y [Hin Hy]]. apply String.eqb_eq in Hy. now subst.
  - intros Hin. exists x. split; [exact Hin | apply String.eqb_refl].
Qed.

Lemma has_false (s : list string) (x : string) :
  JS.has String.eqb s x = false <-> ~ In x s.
Proof.
  rewrite <- has_In. destruct (JS.has String.eqb s x); split; intros H;
    try reflexivity; try discriminate; try (intros H'; discriminate).
  now contradiction H.
Qed.

Lemma add_novel (s : list string) (x : string) :
  ~ In x s -> JS.add String.eqb s x = s ++ [x].
Proof. intros H. unfold JS.add. apply has_false in H. now rewrite H. Qed.

Lemma add_NoDup (s : list string) (x : string) :
  NoDup s -> NoDup (JS.add String.eqb s x).
Proof.
  intros Hnd. unfold JS.add. destruct (JS.has String.eqb s x) eqn:Hhas; [exact Hnd |].
  apply has_false in Hhas. apply NoDup_app; [exact Hnd | repeat constructor; simpl; tauto |].
  intros y Hy [<-|[]]. contradiction.
Qed.

Lemma add_length (s : list string) (x : string) :
  (List.length (JS.add String.eqb s x) <= S (List.length s))%nat.
Proof.
  unfold JS.add. destruct (JS.has String.eqb s x); [lia |].
  rewrite length_app. simpl. lia.
Qed.

Lemma fold_add_NoDup (xs : list string) :
  forall acc, NoDup acc -> NoDup (fold_left (JS.add String.eqb) xs acc).
Proof.
  induction xs as [|x xs IH]; intros acc Hacc; simpl; [exact Hacc |].
  apply IH, add_NoDup, Hacc.
Qed.

Lemma fold_add_length (xs : list string) :
  forall acc,
    (List.length (fold_left (JS.add String.eqb) xs acc)
     <= List.length acc + List.length xs)%nat.
Proof.
  induction xs as [|x xs IH]; intros acc; simpl; [lia |].
  specialize (IH (JS.add String.eqb acc x)). pose proof (add_length acc x). lia.
Qed.

Lemma fold_add_distinct (xs : list string) :
  forall acc, NoDup (acc ++ xs) -> fold_left (JS.add String.eqb) xs acc = acc ++ xs.
Proof.
  induction xs as [|x xs IH]; intros acc Hnd; simpl.
  - now rewrite app_nil_r.
  - assert (Hx : ~ In x acc).
    { apply NoDup_remove_2 in Hnd. intros Hin. apply Hnd. apply in_or_app. now left. }
    rewrite (add_novel acc x Hx), IH.
    + now rewrite <- app_assoc.
    + now rewrite <- app_assoc.
Qed.

Lemma from_list_NoDup (xs : list string) : NoDup (JS.from_list String.eqb xs).
Proof. apply fold_add_NoDup. constructor. Qed.

Lemma from_list_length (xs : list string) :
  (List.length (JS.from_list String.eqb xs) <= List.length xs)%nat.
Proof. apply (fold_add_length xs []). Qed.

Lemma from_list_distinct (xs : list string) :
  NoDup xs -> JS.from_list String.eqb xs = xs.
Proof. intros H. apply (fold_add_distinct xs []). exact H. Qed.

Lemma NoDup_skipn {A} (n : nat) (xs : list A) : NoDup xs -> NoDup (skipn n xs).
Proof.
  intros H. rewrite <- (firstn_skipn n xs) in H. now apply NoDup_app_remove_l in H.
Qed.

Lemma NoDup_app_disjoint {A} (l1 l2 : list A) :
  NoDup (l1 ++ l2) -> forall a, In a l1 -> ~ In a l2.
Proof.
  induction l1 as [|x l1 IH]; intros Hnd a Hin; [destruct Hin |].
  simpl in Hnd. apply NoDup_cons_iff in Hnd. destruct Hnd as [Hx Hnd].
  destruct Hin as [->|Hin].
  - intros Ha. apply Hx. apply in_or_app. now right.
  - now apply IH.
Qed.

(** ** The dedup cache *)

Lemma remember_bound (cache : list string) (sig : string) :
  (List.length (remember cache sig) <= 1000)%nat.
Proof.
  unfold remember.
  destruct (1000 <? List.length (JS.add String.eqb cache sig))%nat eqn:Hbig.
  - pose proof (from_list_length (JS.slice_last 500 (JS.add String.eqb cache sig))) as H.
    unfold JS.slice_last in *. rewrite length_skipn in H.
    apply Nat.ltb_lt in Hbig. lia.
  - apply Nat.ltb_ge in Hbig. exact Hbig.
Qed.

Lemma remember_NoDup (cache : list string) (sig : string) :
  NoDup cache -> NoDup (remember cache sig).
Proof.
  intros H. unfold remember.
  destruct (1000 <? _)%nat; [apply from_list_NoDup | now apply add_NoDup].
Qed.

Lemma remember_In (cache : list string) (sig : string) :
  NoDup cache -> ~ In sig cache -> In sig (remember cache sig).
Proof.
  intros Hnd Hnew. unfold remember.
  pose proof (add_NoDup cache sig Hnd) as Hnd'.
  rewrite (add_novel cache sig Hnew) in *.
  destruct (1000 <? _)%nat eqn:Hbig.
  - rewrite from_list_distinct by (apply NoDup_skipn, Hnd').
    unfold JS.slice_last. rewrite skipn_app. apply in_or_app. right.
    rewrite length_app. simpl.
    replace (List.length cache + 1 - 500 - List.length cache)%nat with 0%nat by lia.
    now left.
  - apply in_or_app. right. now left.
Qed.

Lemma remember_evicts (cache : list string) (sig : string) :
  NoDup cache ->
  ~ In sig cache ->
  List.length cache = 1000%nat ->
  remember cache sig = skipn 501 (cache ++ [sig])
  /\ List.length (remember cache sig) = 500%nat.
Proof.
  intros Hnd Hnew Hlen. unfold remember.
  pose proof (add_NoDup cache sig Hnd) as Hnd'.
  rewrite (add_novel cache sig Hnew) in *.
  assert (Hbig : (1000 <? List.length (cache ++ [sig]))%nat = true).
  { apply Nat.ltb_lt. rewrite length_app. simpl. lia. }
  rewrite Hbig. rewrite from_list_distinct by (apply NoDup_skipn, Hnd').
  unfold JS.slice_last.
  replace (List.length (cache ++ [sig]) - 500)%nat with 501%nat
    by (rewrite length_app; simpl; lia).
  split; [reflexivity |].
  rewrite length_skipn, length_app. simpl. lia.
Qed.

(** ** What each handler changes *)

Lemma handleLogNotification_monitor
    (storeReply : CandidateWallet -> StoreReply) (m : SolanaMonitor)
    (logEntry : option LogEntry) :
  fst (handleLogNotification storeReply m logEntry)
  = match entry_signature logEntry with
    | Some sig =>
        if JS.truthy_str sig && negb (JS.has String.eqb (processedTransactions m) sig)
        then set_processedTransactions m (remember (processedTransactions m) sig)
        else m
    | None => m
    end.
Proof.
  unfold handleLogNotification, entry_signature.
  destruct logEntry as [[contextData [valueData|]]|]; try reflexivity.
  cbn [value]. destruct (signature valueData) as [sig|]; [| reflexivity].
  destruct (JS.truthy_str sig); cbn [negb andb]; [| reflexivity].
  destruct (JS.has String.eqb (processedTransactions m) sig); cbn [negb]; [reflexivity |].
  destruct (logs valueData) as [lines|]; [destruct (isDEXTransaction lines) |];
    reflexivity.
Qed.

Lemma truthy_str_true (sig : string) : sig <> "" -> JS.truthy_str sig = true.
Proof.
  intros Hne. unfold JS.truthy_str.
  destruct (String.eqb_spec sig ""); [contradiction | reflexivity].
Qed.

Lemma handleLogNotification_fields
    (storeReply : CandidateWallet -> StoreReply) (m : SolanaMonitor)
    (logEntry : option LogEntry) :
  fst (handleLogNotification storeReply m logEntry) = m
  \/ exists sig,
       fst (handleLogNotification storeReply m logEntry)
       = set_processedTransactions m (remember (processedTransactions m) sig).
Proof.
  rewrite handleLogNotification_monitor.
  destruct (entry_signature logEntry) as [sig|]; [| now left].
  destruct (_ && _); [right; now exists sig | now left].
Qed.

Lemma handleMessage_fields
    (storeReply : CandidateWallet -> StoreReply) (m : SolanaMonitor)
    (data : option Message) :
  fst (handleMessage storeReply m data) = m
  \/ (exists ids, fst (handleMessage storeReply m data) = set_subscriptionIds m ids)
  \/ (exists logEntry,
        fst (handleMessage storeReply m data)
        = fst (handleLogNotification storeReply m logEntry)).
Proof.
  unfold handleMessage. destruct data as [message|]; [| now left].
  destruct (JS.truthy_opt JS.truthy_num (msg_id message)
            && JS.truthy_opt JS.truthy_num (msg_result message)).
  { destruct (msg_result message); [right; left; eexists; reflexivity | now left]. }
  destruct (JS.truthy_opt JS.truthy_num (msg_id message)
            && JS.truthy_opt (fun _ => true) (msg_error message)); [now left |].
  destruct (_ && _); [| now left].
  destruct (msg_params message) as [params|]; [| now left].
  right; right. exists (params_result params).
  now destruct (handleLogNotification storeReply m (params_result params)).
Qed.

Lemma handleReconnect_running (m m' : SolanaMonitor) :
  fst (handleReconnect m) = Running m' ->
  (reconnectAttempts m < maxReconnectAttempts m)%Z
  /\ m' = set_reconnectDelay (set_reconnectAttempts m (reconnectAttempts m + 1))
            (JS.Math_min (reconnectDelay m * 1.5) 60000).
Proof.
  unfold handleReconnect.
  destruct (maxReconnectAttempts m <=? reconnectAttempts m)%Z eqn:Hmax;
    cbn [fst]; [discriminate |].
  intros [= <-]. apply Z.leb_gt in Hmax. split; [exact Hmax | reflexivity].
Qed.

Lemma backoff_ladder_step (d : float) :
  In d backoff_ladder -> In (JS.Math_min (d * 1.5) 60000) backoff_ladder.
Proof.
  unfold backoff_ladder. intros H.
  repeat (destruct H as [<-|H];
          [vm_compute; repeat (first [left; reflexivity | right]) |]).
  destruct H.
Qed.

Lemma backoff_ladder_bounds (d : float) :
  In d backoff_ladder ->
  PrimFloat.leb 5000 d = true /\ PrimFloat.leb d 60000 = true
  /\ PrimFloat.leb d (JS.Math_min (d * 1.5) 60000) = true
  /\ PrimFloat.leb d d = true.
Proof.
  unfold backoff_ladder. intros H.
  repeat (destruct H as [<-|H]; [vm_compute; repeat split |]).
  destruct H.
Qed.

(** ** The invariant *)

Lemma invariant_constructor : invariant constructor.
Proof.
  unfold invariant. cbn. repeat split; try lia; [constructor | now left].
Qed.

Lemma invariant_handleReconnect (m m' : SolanaMonitor) :
  invariant m -> fst (handleReconnect m) = Running m' -> invariant m'.
Proof.
  intros (Hnd & Hlen & Hd & Ha & Hmax) Hrun.
  apply handleReconnect_running in Hrun. destruct Hrun as [Hlt ->].
  unfold invariant. cbn. repeat split; try assumption; try lia.
  now apply backoff_ladder_step.
Qed.

Lemma invariant_step
    (storeReply : CandidateWallet -> StoreReply) (m m' : SolanaMonitor) (e : Event) :
  invariant m -> fst (step storeReply m e) = Running m' -> invariant m'.
Proof.
  intros Hinv. pose proof Hinv as (Hnd & Hlen & Hd & Ha & Hmax).
  destruct e as [ctorThrows| |data| |rs|reply|reply]; cbn [step running fst].
  - unfold connect. destruct (isConnected m || _).
    + intros [= <-]. exact Hinv.
    + destruct ctorThrows.
      * destruct (handleReconnect m) as [p es] eqn:Hr. cbn [fst]. intros ->.
        apply (invariant_handleReconnect m); [exact Hinv | now rewrite Hr].
      * intros [= <-]. exact Hinv.
  - intros [= <-]. unfold invariant. cbn. repeat split; try assumption; try lia.
    now left.
  - intros [= <-].
    destruct (handleMessage_fields storeReply m data) as [->|[[ids ->]|[logEntry ->]]];
      try exact Hinv.
    destruct (handleLogNotification_fields storeReply m logEntry)
      as [->|[sig ->]]; [exact Hinv |].
    unfold invariant. cbn. repeat split; try assumption; try lia.
    + now apply remember_NoDup.
    + apply remember_bound.
  - unfold onclose.
    set (m2 := set_subscriptionIds _ _).
    destruct (handleReconnect m2) as [p es] eqn:Hr. cbn [fst]. intros ->.
    apply (invariant_handleReconnect m2); [exact Hinv | now rewrite Hr].
  - intros [= <-]. exact Hinv.
  - intros [= <-]. destruct reply; exact Hinv.
  - intros [= <-]. unfold refreshTrackedWallets.
    destruct reply; exact Hinv.
Qed.

Lemma invariant_run
    (storeReply : CandidateWallet -> StoreReply) (events : list Event) :
  forall m m',
    invariant m ->
    fst (run storeReply (Running m) events) = Running m' ->
    invariant m'.
Proof.
  induction events as [|e rest IH]; intros m m' Hinv; cbn [run fst].
  - intros [= <-]. exact Hinv.
  - destruct (step storeReply m e) as [p es] eqn:Hstep.
    destruct p as [m1|code].
    + destruct (run storeReply (Running m1) rest) as [p2 es2] eqn:Hrun. cbn [fst].
      intros ->. apply (IH m1 m').
      * apply (invariant_step storeReply m m1 e Hinv). now rewrite Hstep.
      * now rewrite Hrun.
    + destruct rest; cbn; discriminate.
Qed.

Lemma invariant_reachable
    (storeReply : CandidateWallet -> StoreReply) (m : SolanaMonitor) :
  reachable storeReply m -> invariant m.
Proof.
  intros [events Hrun].
  exact (invariant_run storeReply events constructor m invariant_constructor Hrun).
Qed.

(** C3: whatever the process has gone through, the dedup cache holds at most
    1000 signatures, before and after a log notification is handled; and when
    the notification brings a new signature to a cache of 1000, the cache is
    cut down to exactly 500 entries, the 500 inserted last (the new one
    included), the 501 oldest being dropped. *)
Theorem dedup_cache_capacity
    (storeReply : CandidateWallet -> StoreReply) (events : list Event)
    (m : SolanaMonitor) (logEntry : option LogEntry) :
  fst (run storeReply (Running constructor) events) = Running m ->
  let cache := processedTransactions m in
  let cache' := processedTransactions (fst (handleLogNotification storeReply m logEntry)) in
  (List.length cache <= 1000)%nat
  /\ (List.length cache' <= 1000)%nat
  /\ forall sig,
       entry_signature logEntry = Some sig ->
       sig <> "" ->
       ~ In sig cache ->
       List.length cache = 1000%nat ->
       List.length cache' = 500%nat
       /\ cache' = skipn 501 (cache ++ [sig])
       /\ In sig cache'
       /\ forall old, In old (firstn 501 (cache ++ [sig])) -> ~ In old cache'.
Proof.
  intros Hrun cache cache'.
  assert (Hinv : invariant m)
    by exact (invariant_run storeReply events constructor m invariant_constructor Hrun).
  destruct Hinv as (Hnd & Hlen & _).
  split; [exact Hlen |]. split.
  - subst cache'.
    destruct (handleLogNotification_fields storeReply m logEntry)
      as [->|[sig ->]]; [exact Hlen | apply remember_bound].
  - intros sig Hsig Hne Hnew Hfull. subst cache cache'.
    rewrite handleLogNotification_monitor, Hsig, (truthy_str_true sig Hne).
    rewrite (proj2 (has_false _ _) Hnew).
    cbn [andb negb processedTransactions set_processedTransactions].
    destruct (remember_evicts _ sig Hnd Hnew Hfull) as [Hkept H500].
    split; [exact H500 |]. split; [exact Hkept |].
    split; [now apply remember_In |].
    intros old Hold Hin. rewrite Hkept in Hin.
    assert (Hnd' : NoDup (processedTransactions m ++ [sig])).
    { rewrite <- (add_novel _ _ Hnew). now apply add_NoDup. }
    rewrite <- (firstn_skipn 501 (processedTransactions m ++ [sig])) in Hnd'.
    exact (NoDup_app_disjoint _ _ Hnd' old Hold Hin).
Qed.

(** A thousand distinct signatures fill the cache; the next one triggers the
    clean-up, which keeps [sig_n 501], ..., [sig_n 1000]. *)
Lemma dedup_cache_capacity_witness :
  let m := monitor_of (fst (run (fun _ => StoreOk) (Running constructor)
                              (novel_notifications 1000))) in
  let cache' :=
    processedTransactions
      (fst (handleLogNotification (fun _ => StoreOk) m (logEntry_of (sig_n 1000) [] 0))) in
  List.length (processedTransactions m) = 1000%nat
  /\ List.length cache' = 500%nat
  /\ cache' = map sig_n (seq 501 500).
Proof.
  intros m cache'.
  assert (Hrun : fst (run (fun _ => StoreOk) (Running constructor)
                        (novel_notifications 1000)) = Running m)
    by (vm_compute; reflexivity).
  assert (Hfull : List.length (processedTransactions m) = 1000%nat)
    by (vm_compute; reflexivity).
  assert (Hnew : ~ In (sig_n 1000) (processedTransactions m))
    by (apply has_false; vm_compute; reflexivity).
  destruct (dedup_cache_capacity (fun _ => StoreOk) (novel_notifications 1000) m
              (logEntry_of (sig_n 1000) [] 0) Hrun) as (_ & _ & H).
  destruct (H (sig_n 1000) eq_refl ltac:(discriminate) Hnew Hfull) as (H500 & Hkept & _).
  split; [exact Hfull |]. split; [exact H500 |].
  fold cache' in Hkept. rewrite Hkept. vm_compute. reflexivity.
Defined.

(** ** Duplicate and novel notifications *)

Lemma upserts_app (es1 es2 : list Effect) :
  upserts (es1 ++ es2) = upserts es1 ++ upserts es2.
Proof.
  induction es1 as [|e es1 IH]; [reflexivity |].
  destruct e; simpl; rewrite ?IH; reflexivity.
Qed.

Lemma upserts_quickWalletDiscovery
    (storeReply : CandidateWallet -> StoreReply)
    (sig : string) (valueData : LogValue) (contextData : option LogContext) :
  upserts (quickWalletDiscovery storeReply sig valueData contextData)
  = map (fun walletAddress => candidate walletAddress sig contextData)
      (extractWalletAddresses
         (match logs valueData with Some l => l | None => [] end)).
Proof.
  unfold quickWalletDiscovery.
  destruct (extractWalletAddresses _) as [|a rest]; [reflexivity |].
  cbn [List.length Nat.ltb Nat.leb upserts].
  induction (a :: rest) as [|x xs IH]; [reflexivity |].
  cbn [flat_map map]. rewrite upserts_app, IH.
  unfold analyzeWalletProfitability. destruct (storeReply _); reflexivity.
Qed.

(** C4: a notification whose signature is already in the dedup cache leaves
    every field as it was and has no effect at all (no classification, no
    extraction, no store write); one whose signature is new is remembered
    and classified, and when the classifier matches, the extractor runs and
    each address it returns is upserted. *)
Theorem duplicate_notifications_are_discarded
    (storeReply : CandidateWallet -> StoreReply) (m : SolanaMonitor)
    (contextData : option LogContext) (sig : string) (lgs : option (list string)) :
  NoDup (processedTransactions m) ->
  sig <> "" ->
  let logEntry :=
    Some {| context := contextData;
            value := Some {| signature := Some sig; logs := lgs |} |} in
  let m' := fst (handleLogNotification storeReply m logEntry) in
  let es := snd (handleLogNotification storeReply m logEntry) in
  (In sig (processedTransactions m) -> m' = m /\ es = [])
  /\ (~ In sig (processedTransactions m) ->
      In sig (processedTransactions m')
      /\ forall lines, lgs = Some lines ->
           upserts es
           = if isDEXTransaction lines
             then map (fun walletAddress => candidate walletAddress sig contextData)
                    (extractWalletAddresses lines)
             else []).
Proof.
  intros Hnd Hne logEntry m' es. subst logEntry m' es.
  unfold handleLogNotification. cbn [signature logs].
  rewrite (truthy_str_true sig Hne). cbn [negb].
  split.
  - intros Hin. apply has_In in Hin. rewrite Hin. now split.
  - intros Hnew. pose proof Hnew as Hhas. apply has_false in Hhas. rewrite Hhas.
    split.
    + destruct lgs as [lines|]; [destruct (isDEXTransaction lines) |];
        cbn [fst processedTransactions set_processedTransactions];
        now apply remember_In.
    + intros lines ->. destruct (isDEXTransaction lines); [| reflexivity].
      cbn [snd app upserts processTransaction].
      now rewrite upserts_quickWalletDiscovery.
Qed.

(** The same swap is announced twice. *)
Lemma duplicate_notifications_are_discarded_witness :
  let wallet := "7xKXtg2CW87d97TXJSDpbD5jBkheTqA83TZRuJosgAsU" in
  let logEntry := logEntry_of "5VERv8NMvzbJ" [("swap wallet=" ++ wallet)%string] 7 in
  let first := handleLogNotification (fun _ => StoreOk) constructor logEntry in
  let second := handleLogNotification (fun _ => StoreOk) (fst first) logEntry in
  map wallet_address (upserts (snd first)) = [wallet]
  /\ second = (fst first, []).
Proof.
  intros wallet logEntry first second. split.
  - destruct (duplicate_notifications_are_discarded (fun _ => StoreOk) constructor
                (Some {| slot := Some 7%Z |}) "5VERv8NMvzbJ"
                (Some [("swap wallet=" ++ wallet)%string])
                (NoDup_nil _) ltac:(discriminate)) as [_ Hnovel].
    destruct (Hnovel (fun H => H)) as [_ Hup].
    specialize (Hup _ eq_refl). subst first logEntry. unfold logEntry_of.
    rewrite Hup. vm_compute. reflexivity.
  - destruct (duplicate_notifications_are_discarded (fun _ => StoreOk) (fst first)
                (Some {| slot := Some 7%Z |}) "5VERv8NMvzbJ"
                (Some [("swap wallet=" ++ wallet)%string])) as [Hdup _].
    + vm_compute. repeat constructor. simpl. tauto.
    + discriminate.
    + destruct Hdup as [Hm Hes]; [vm_compute; now left |].
      subst second logEntry. unfold logEntry_of.
      rewrite (surjective_pairing (handleLogNotification _ _ _)).
      now rewrite Hm, Hes.
Defined.

(** C10: a notification without [value.signature] (no payload, no [value],
    or no [signature] in it) is reported on the console and nothing else
    happens: every field, the dedup cache included, is as before, and nothing
    is classified, extracted or written to the store. *)
Theorem malformed_notification_changes_nothing
    (storeReply : CandidateWallet -> StoreReply) (m : SolanaMonitor)
    (logEntry : option LogEntry) :
  entry_signature logEntry = None ->
  handleLogNotification storeReply m logEntry
  = (m, [ConsoleLog "Unexpected log entry structure:"]).
Proof.
  unfold entry_signature, handleLogNotification.
  destruct logEntry as [[contextData [valueData|]]|]; try reflexivity.
  cbn [value]. now intros ->.
Qed.

Lemma malformed_notification_changes_nothing_witness :
  let logEntry :=
    Some {| context := Some {| slot := Some 7%Z |};
            value := Some {| signature := None; logs := Some ["swap"] |} |} in
  handleLogNotification (fun _ => StoreOk) constructor logEntry
  = (constructor, [ConsoleLog "Unexpected log entry structure:"])
  /\ handleLogNotification (fun _ => StoreOk) constructor None
     = (constructor, [ConsoleLog "Unexpected log entry structure:"]).
Proof.
  intros logEntry. split.
  - exact (malformed_notification_changes_nothing (fun _ => StoreOk) constructor
             logEntry eq_refl).
  - exact (malformed_notification_changes_nothing (fun _ => StoreOk) constructor
             None eq_refl).
Defined.

(** ** The discovery sink *)

(** C9, at a failing input: the wallet is tracked (loaded from the store as
    verified), a swap mentioning it is announced, and the sink still upserts
    it as a candidate. *)
Lemma tracked_wallet_is_upserted_as_candidate :
  let wallet := "7xKXtg2CW87d97TXJSDpbD5jBkheTqA83TZRuJosgAsU" in
  let logEntry := logEntry_of "5VERv8NMvzbJ" [("swap wallet=" ++ wallet)%string] 7 in
  let events :=
    [WalletsLoaded (LoadData [wallet]); Connect false; SocketOpen;
     SocketMessage (notification logEntry)] in
  let outcome := run (fun _ => StoreOk) (Running constructor) events in
  JS.has String.eqb (trackedWallets (monitor_of (fst outcome))) wallet = true
  /\ upserts (snd outcome)
     = [candidate wallet "5VERv8NMvzbJ" (Some {| slot := Some 7%Z |})].
Proof. vm_compute. split; reflexivity. Qed.

(** ** Reconnection *)

Lemma handleLogNotification_backoff
    (storeReply : CandidateWallet -> StoreReply) (m : SolanaMonitor)
    (logEntry : option LogEntry) :
  reconnectAttempts (fst (handleLogNotification storeReply m logEntry))
  = reconnectAttempts m
  /\ reconnectDelay (fst (handleLogNotification storeReply m logEntry))
     = reconnectDelay m.
Proof.
  destruct (handleLogNotification_fields storeReply m logEntry)
    as [->|[sig ->]]; split; reflexivity.
Qed.

Lemma handleMessage_backoff
    (storeReply : CandidateWallet -> StoreReply) (m : SolanaMonitor)
    (data : option Message) :
  reconnectAttempts (fst (handleMessage storeReply m data)) = reconnectAttempts m
  /\ reconnectDelay (fst (handleMessage storeReply m data)) = reconnectDelay m.
Proof.
  destruct (handleMessage_fields storeReply m data) as [->|[[ids ->]|[logEntry ->]]];
    [split; reflexivity | split; reflexivity | apply handleLogNotification_backoff].
Qed.

(** An event other than the socket's opening leaves the attempt counter and
    the delay alone, or goes through [handleReconnect]. *)
Lemma step_backoff
    (storeReply : CandidateWallet -> StoreReply) (m m' : SolanaMonitor) (e : Event) :
  e <> SocketOpen ->
  fst (step storeReply m e) = Running m' ->
  (reconnectAttempts m' = reconnectAttempts m /\ reconnectDelay m' = reconnectDelay m)
  \/ (reconnectAttempts m' = (reconnectAttempts m + 1)%Z
      /\ reconnectDelay m' = JS.Math_min (reconnectDelay m * 1.5) 60000).
Proof.
  intros Hne.
  destruct e as [ctorThrows| |data| |rs|reply|reply]; cbn [step running fst].
  - unfold connect. destruct (isConnected m || _).
    + intros [= <-]. now left.
    + destruct ctorThrows.
      * destruct (handleReconnect m) as [p es] eqn:Hr. cbn [fst]. intros ->.
        assert (Hrun : fst (handleReconnect m) = Running m') by now rewrite Hr.
        apply handleReconnect_running in Hrun. destruct Hrun as [_ ->]. now right.
      * intros [= <-]. now left.
  - contradiction.
  - intros [= <-]. left. apply handleMessage_backoff.
  - unfold onclose. set (m2 := set_subscriptionIds _ _).
    destruct (handleReconnect m2) as [p es] eqn:Hr. cbn [fst]. intros ->.
    assert (Hrun : fst (handleReconnect m2) = Running m') by now rewrite Hr.
    apply handleReconnect_running in Hrun. destruct Hrun as [_ ->]. now right.
  - intros [= <-]. now left.
  - intros [= <-]. left. destruct reply; split; reflexivity.
  - intros [= <-]. left. destruct reply; split; reflexivity.
Qed.

(** C5: the delay starts at 5000 ms and the attempt counter at 0; a
    reconnect that is scheduled uses the current delay for its timer and then
    sets the delay to [min(delay * 1.5, 60000)], which from 5000 gives the
    timers 5000, 7500, 11250, 16875, 25312.5 (integer part 25312), 37968.75,
    56953.125, 60000, 60000, 60000; the delay of a running monitor is never
    above 60000; the socket's opening puts the delay back to 5000 and the
    counter to 0, and no other event lowers either of them. *)
Theorem reconnect_backoff
    (storeReply : CandidateWallet -> StoreReply) (events : list Event)
    (m : SolanaMonitor) :
  fst (run storeReply (Running constructor) events) = Running m ->
  (reconnectDelay constructor = 5000%float /\ reconnectAttempts constructor = 0%Z)
  /\ (PrimFloat.leb 5000 (reconnectDelay m) = true
      /\ PrimFloat.leb (reconnectDelay m) 60000 = true)
  /\ ((reconnectAttempts m < maxReconnectAttempts m)%Z ->
      handleReconnect m
      = (Running (set_reconnectDelay
                    (set_reconnectAttempts m (reconnectAttempts m + 1))
                    (JS.Math_min (reconnectDelay m * 1.5) 60000)),
         [ConsoleLog "Reconnecting... Attempt"; SetTimeoutConnect (reconnectDelay m)]))
  /\ (scheduled (snd (run storeReply (Running constructor)
                        (List.concat (repeat failed_attempt 10))))
      = [5000; 7500; 11250; 16875; 25312.5; 37968.75; 56953.125;
         60000; 60000; 60000]%float
      /\ JS.trunc 25312.5 = Some 25312%Z)
  /\ (reconnectDelay (fst (onopen m)) = 5000%float
      /\ reconnectAttempts (fst (onopen m)) = 0%Z)
  /\ forall e m',
       e <> SocketOpen ->
       fst (step storeReply m e) = Running m' ->
       (reconnectAttempts m <= reconnectAttempts m')%Z
       /\ PrimFloat.leb (reconnectDelay m) (reconnectDelay m') = true.
Proof.
  intros Hrun.
  assert (Hinv : invariant m)
    by exact (invariant_run storeReply events constructor m invariant_constructor Hrun).
  destruct Hinv as (_ & _ & Hd & Ha & Hmax).
  destruct (backoff_ladder_bounds _ Hd) as (Hlo & Hhi & Hup & Hrefl).
  split; [split; reflexivity |].
  split; [split; assumption |].
  split.
  { intros Hlt. unfold handleReconnect. apply Z.leb_gt in Hlt. now rewrite Hlt. }
  split; [split; vm_compute; reflexivity |].
  split; [split; reflexivity |].
  intros e m' Hne Hstep.
  destruct (step_backoff storeReply m m' e Hne Hstep) as [[-> ->]|[-> ->]].
  - split; [lia | exact Hrefl].
  - split; [lia | exact Hup].
Qed.

(** Four failed attempts in a row, then a fifth close and, instead, an
    opening. *)
Lemma reconnect_backoff_witness :
  let m := monitor_of (fst (run (fun _ => StoreOk) (Running constructor)
                              (List.concat (repeat failed_attempt 4)))) in
  (reconnectAttempts m = 4%Z /\ reconnectDelay m = 25312.5%float)
  /\ scheduled (snd (handleReconnect m)) = [25312.5%float]
  /\ reconnectDelay (monitor_of (fst (handleReconnect m))) = 37968.75%float
  /\ reconnectDelay (fst (onopen m)) = 5000%float.
Proof.
  intros m.
  assert (Hrun : fst (run (fun _ => StoreOk) (Running constructor)
                        (List.concat (repeat failed_attempt 4))) = Running m)
    by (vm_compute; reflexivity).
  destruct (reconnect_backoff (fun _ => StoreOk) (List.concat (repeat failed_attempt 4)) m
              Hrun) as (_ & _ & Hre & _ & [Hopen _] & _).
  split; [split; vm_compute; reflexivity |].
  rewrite (Hre ltac:(vm_compute; reflexivity)).
  split; [vm_compute; reflexivity |]. split; [vm_compute; reflexivity | exact Hopen].
Defined.

(** ** The wallet regular expression *)

Lemma take_class_all_class (n : nat) :
  forall s, all_class (WalletRegex.take_class n s) = true.
Proof.
  induction n as [|n IH]; intros [|c s]; cbn [WalletRegex.take_class]; try reflexivity.
  destruct (WalletRegex.in_class c) eqn:Hc; [| reflexivity].
  cbn [all_class]. now rewrite Hc, IH.
Qed.

Lemma take_class_length (n : nat) :
  forall s, (String.length (WalletRegex.take_class n s) <= n)%nat.
Proof.
  induction n as [|n IH]; intros [|c s]; cbn [WalletRegex.take_class String.length];
    try lia.
  destruct (WalletRegex.in_class c); cbn [String.length]; [| lia].
  specialize (IH s). lia.
Qed.

Lemma take_class_leading (n : nat) :
  forall s, (String.length (WalletRegex.take_class n s) <= leading_class s)%nat.
Proof.
  induction n as [|n IH]; intros [|c s];
    cbn [WalletRegex.take_class String.length leading_class]; try lia.
  destruct (WalletRegex.in_class c); cbn [String.length]; [| lia].
  specialize (IH s). lia.
Qed.

Lemma take_class_prefix (n : nat) :
  forall s, exists rest, s = (WalletRegex.take_class n s ++ rest)%string.
Proof.
  induction n as [|n IH]; intros [|c s]; cbn [WalletRegex.take_class];
    try (eexists; reflexivity).
  destruct (WalletRegex.in_class c); [| eexists; reflexivity].
  destruct (IH s) as [rest Hrest]. exists rest. simpl. now rewrite <- Hrest.
Qed.

(** On a run followed by a character outside the alphabet, the quantifier
    takes the first [n] characters of the run, all of it when it is not
    longer. *)
Lemma take_class_run (t post : string) :
  all_class t = true ->
  starts_outside post = true ->
  forall n, WalletRegex.take_class n (t ++ post) = substring 0 n t.
Proof.
  intros Ht Hpost. induction t as [|c t IH]; intros n.
  - cbn [append]. destruct n, post as [|d post]; cbn [WalletRegex.take_class substring];
      try reflexivity.
    cbn [starts_outside] in Hpost. apply negb_true_iff in Hpost. now rewrite Hpost.
  - cbn [all_class] in Ht. apply andb_true_iff in Ht. destruct Ht as [Hc Ht].
    destruct n; cbn [append WalletRegex.take_class substring]; [reflexivity |].
    now rewrite Hc, IH.
Qed.

Lemma substring_all (t : string) :
  forall n, (String.length t <= n)%nat -> substring 0 n t = t.
Proof.
  induction t as [|c t IH]; intros [|n] Hn; cbn [substring String.length] in *;
    try reflexivity; try lia.
  rewrite IH by lia. reflexivity.
Qed.

Lemma substring_length_min (t : string) :
  forall n, String.length (substring 0 n t) = Nat.min n (String.length t).
Proof.
  induction t as [|c t IH]; intros [|n]; cbn [substring String.length Nat.min];
    try reflexivity.
  now rewrite IH.
Qed.

Lemma match_at_Some (s a : string) :
  WalletRegex.match_at s = Some a ->
  all_class a = true /\ (32 <= String.length a <= 44)%nat
  /\ exists rest, s = (a ++ rest)%string.
Proof.
  pose proof (take_class_all_class 44 s) as H1.
  pose proof (take_class_length 44 s) as H2.
  pose proof (take_class_prefix 44 s) as H3.
  unfold WalletRegex.match_at. cbv zeta.
  generalize dependent (WalletRegex.take_class 44 s). intros t H1 H2 H3.
  destruct (32 <=? String.length t)%nat eqn:Hlen; [| discriminate].
  intros Heq. assert (t = a) by congruence. subst a.
  apply Nat.leb_le in Hlen. repeat split; assumption.
Qed.

(** Every match is a piece of the line made of 32 to 44 alphabet characters. *)
Lemma scan_sound (s : string) :
  forall skip a,
    In a (WalletRegex.scan skip s) ->
    all_class a = true /\ (32 <= String.length a <= 44)%nat /\ JS.Substring a s.
Proof.
  induction s as [|c s IH]; intros skip a; cbn [WalletRegex.scan]; [intros [] |].
  assert (Hlater : forall k, In a (WalletRegex.scan k s) ->
                     all_class a = true /\ (32 <= String.length a <= 44)%nat
                     /\ JS.Substring a (String c s)).
  { intros k Hin. destruct (IH k a Hin) as (H1 & H2 & pre & post & Heq).
    split; [exact H1 |]. split; [exact H2 |].
    exists (String c pre), post. simpl. now rewrite Heq. }
  destruct skip as [|k]; [| apply Hlater].
  destruct (WalletRegex.match_at (String c s)) as [t|] eqn:Hm; [| apply Hlater].
  intros [<-|Hin]; [| exact (Hlater _ Hin)].
  destruct (match_at_Some _ _ Hm) as (H1 & H2 & rest & Heq).
  split; [exact H1 |]. split; [exact H2 |]. now exists "", rest.
Qed.

Lemma match_at_leading (s a : string) :
  WalletRegex.match_at s = Some a ->
  (32 <= String.length a <= leading_class s)%nat.
Proof.
  pose proof (take_class_leading 44 s) as H1.
  unfold WalletRegex.match_at. cbv zeta.
  generalize dependent (WalletRegex.take_class 44 s). intros t H1.
  destruct (32 <=? String.length t)%nat eqn:Hlen; [| discriminate].
  intros Heq. assert (t = a) by congruence. subst a.
  apply Nat.leb_le in Hlen. lia.
Qed.

Lemma match_at_run (t post : string) :
  all_class t = true ->
  (32 <= String.length t)%nat ->
  starts_outside post = true ->
  WalletRegex.match_at (t ++ post) = Some (substring 0 44 t).
Proof.
  intros Ht Hlen Hpost. unfold WalletRegex.match_at. cbv zeta.
  rewrite (take_class_run t post Ht Hpost 44), substring_length_min.
  assert (H : (32 <=? Nat.min 44 (String.length t))%nat = true)
    by (apply Nat.leb_le; lia).
  now rewrite H.
Qed.

Lemma match_at_outside (c : ascii) (s : string) :
  WalletRegex.in_class c = false -> WalletRegex.match_at (String c s) = None.
Proof.
  intros Hc. unfold WalletRegex.match_at. cbv zeta.
  cbn [WalletRegex.take_class]. rewrite Hc. reflexivity.
Qed.

(** The scan reaches every maximal run with no match pending over it, and
    matches the first 44 characters of a run of 32 or more. *)
Lemma scan_complete (t post : string) :
  all_class t = true ->
  (32 <= String.length t)%nat ->
  starts_outside post = true ->
  forall pre skip,
    ends_outside pre = true ->
    (skip <= leading_class (pre ++ t ++ post))%nat ->
    (pre = "" -> skip = 0%nat) ->
    In (substring 0 44 t) (WalletRegex.scan skip (pre ++ t ++ post)).
Proof.
  intros Ht Hlen Hpost. induction pre as [|c pre IH]; intros skip Hpre Hskip Hzero.
  - rewrite (Hzero eq_refl). cbn [append].
    destruct t as [|c t]; [cbn in Hlen; lia |].
    change (String c t ++ post)%string with (String c (t ++ post)).
    cbn [WalletRegex.scan].
    change (String c (t ++ post)) with (String c t ++ post)%string.
    rewrite (match_at_run _ _ Ht Hlen Hpost). now left.
  - change (String c pre ++ t ++ post)%string with (String c (pre ++ t ++ post)) in *.
    cbn [WalletRegex.scan leading_class] in *.
    destruct pre as [|d pre].
    + cbn [ends_outside] in Hpre. apply negb_true_iff in Hpre.
      rewrite Hpre in Hskip. assert (skip = 0%nat) by lia. subst skip.
      rewrite (match_at_outside c _ Hpre).
      apply IH; [reflexivity | lia | reflexivity].
    + assert (Hpre' : ends_outside (String d pre) = true) by exact Hpre.
      destruct skip as [|k].
      * destruct (WalletRegex.match_at _) as [t'|] eqn:Hm.
        -- right. apply IH; [exact Hpre' | | discriminate].
           apply match_at_leading in Hm. cbn [leading_class] in Hm.
           destruct (WalletRegex.in_class c); lia.
        -- apply IH; [exact Hpre' | lia | discriminate].
      * apply IH; [exact Hpre' | | discriminate].
        destruct (WalletRegex.in_class c); lia.
Qed.

Lemma match_all_maximal_run (t line : string) :
  MaximalRun t line ->
  (32 <= String.length t)%nat ->
  In (substring 0 44 t) (WalletRegex.match_all line).
Proof.
  intros (pre & post & -> & _ & Ht & Hpre & Hpost) Hlen.
  unfold WalletRegex.match_all.
  apply scan_complete; try assumption; [lia | reflexivity].
Qed.

(** ** The extractor *)

Lemma add_In (s : list string) (x y : string) :
  In y (JS.add String.eqb s x) <-> In y s \/ y = x.
Proof.
  unfold JS.add. destruct (JS.has String.eqb s x) eqn:Hhas.
  - apply has_In in Hhas. split; [tauto | intros [H| ->]; assumption].
  - rewrite in_app_iff. simpl. split; intros [H|H]; auto.
    + destruct H as [<-|[]]. now right.
Qed.

Lemma collect_In (matches : list string) :
  forall acc y,
    In y (fold_left
            (fun acc address =>
               if ((32 <=? String.length address) && (String.length address <=? 44))%nat
               then JS.add String.eqb acc address
               else acc)
            matches acc)
    <-> In y acc
        \/ (In y matches /\ (32 <= String.length y <= 44)%nat).
Proof.
  induction matches as [|a rest IH]; intros acc y; cbn [fold_left].
  - simpl. tauto.
  - rewrite IH.
    destruct ((32 <=? String.length a) && (String.length a <=? 44))%nat eqn:Hok.
    + apply andb_true_iff in Hok. destruct Hok as [H1 H2].
      apply Nat.leb_le in H1, H2. rewrite add_In. simpl.
      intuition (subst; try lia; auto).
    + assert (Hbad : ~ (32 <= String.length a <= 44)%nat).
      { apply andb_false_iff in Hok. destruct Hok as [Hok|Hok];
          apply Nat.leb_gt in Hok; lia. }
      simpl. intuition (subst; try lia; auto).
Qed.

Lemma collect_NoDup (matches : list string) :
  forall acc,
    NoDup acc ->
    NoDup (fold_left
             (fun acc address =>
                if ((32 <=? String.length address) && (String.length address <=? 44))%nat
                then JS.add String.eqb acc address
                else acc)
             matches acc).
Proof.
  induction matches as [|a rest IH]; intros acc Hacc; cbn [fold_left]; [exact Hacc |].
  apply IH. destruct (_ && _)%nat; [now apply add_NoDup | exact Hacc].
Qed.

Lemma extract_fold_In (lines : list string) :
  forall acc y,
    In y (fold_left
            (fun walletAddresses log =>
               fold_left
                 (fun acc address =>
                    if ((32 <=? String.length address)
                        && (String.length address <=? 44))%nat
                    then JS.add String.eqb acc address
                    else acc)
                 (WalletRegex.match_all log) walletAddresses)
            lines acc)
    <-> In y acc \/ exists line, In line lines /\ In y (WalletRegex.match_all line).
Proof.
  induction lines as [|l rest IH]; intros acc y; cbn [fold_left].
  - split; [now left | intros [H|[line [[] _]]]; exact H].
  - rewrite IH, collect_In. split.
    + intros [[H|[H _]]|[line [H1 H2]]]; auto.
      * right. exists l. split; [now left | exact H].
      * right. exists line. split; [now right | exact H2].
    + intros [H|[line [[<-|H1] H2]]]; auto.
      * left. right. split; [exact H2 |].
        apply (scan_sound _ 0 y H2).
      * right. exists line. now split.
Qed.

Lemma extract_fold_NoDup (lines : list string) :
  forall acc,
    NoDup acc ->
    NoDup (fold_left
             (fun walletAddresses log =>
                fold_left
                  (fun acc address =>
                     if ((32 <=? String.length address)
                         && (String.length address <=? 44))%nat
                     then JS.add String.eqb acc address
                     else acc)
                  (WalletRegex.match_all log) walletAddresses)
             lines acc).
Proof.
  induction lines as [|l rest IH]; intros acc Hacc; cbn [fold_left]; [exact Hacc |].
  apply IH. now apply collect_NoDup.
Qed.

Lemma extractWalletAddresses_In (lines : list string) (a : string) :
  In a (extractWalletAddresses lines)
  <-> exists line, In line lines /\ In a (WalletRegex.match_all line).
Proof.
  unfold extractWalletAddresses. rewrite extract_fold_In. simpl. tauto.
Qed.

Lemma all_class_app (a b : string) :
  all_class (a ++ b) = all_class a && all_class b.
Proof.
  induction a as [|c a IH]; [reflexivity |].
  cbn [append all_class]. now rewrite IH, andb_assoc.
Qed.

Lemma ends_outside_all_class (pre : string) :
  all_class pre = true -> ends_outside pre = true -> pre = "".
Proof.
  induction pre as [|c pre IH]; [reflexivity |].
  cbn [all_class]. intros Hall Hend. apply andb_true_iff in Hall.
  destruct Hall as [Hc Hall]. destruct pre as [|d pre].
  - cbn [ends_outside] in Hend. rewrite Hc in Hend. discriminate.
  - assert (H : String d pre = "") by (apply IH; assumption). discriminate.
Qed.

(** A line made of alphabet characters only has one maximal run, itself. *)
Lemma maximal_run_of_run (t line : string) :
  all_class line = true -> MaximalRun t line -> t = line.
Proof.
  intros Hall (pre & post & Heq & _ & _ & Hpre & Hpost). subst line.
  rewrite !all_class_app in Hall. apply andb_true_iff in Hall.
  destruct Hall as [Hp Hall]. apply andb_true_iff in Hall. destruct Hall as [_ Hq].
  rewrite (ends_outside_all_class pre Hp Hpre). cbn [append].
  destruct post as [|c post].
  - clear. induction t as [|c t IH]; [reflexivity | cbn [append]; now rewrite <- IH].
  - cbn [all_class starts_outside] in *. apply andb_true_iff in Hq.
    destruct Hq as [Hc _]. rewrite Hc in Hpost. discriminate.
Qed.

(** ** The matches of a line, run by run *)

Lemma append_assoc3 (a b c : string) :
  ((a ++ b) ++ c)%string = (a ++ b ++ c)%string.
Proof. induction a as [|x a IH]; [reflexivity | simpl; now rewrite IH]. Qed.

Lemma append_length (a b : string) :
  String.length (a ++ b) = (String.length a + String.length b)%nat.
Proof. induction a as [|x a IH]; [reflexivity | simpl; now rewrite IH]. Qed.

Lemma drop_length (n : nat) :
  forall s, String.length (drop n s) = (String.length s - n)%nat.
Proof.
  induction n as [|n IH]; intros [|c s]; cbn [drop String.length]; try lia.
  apply IH.
Qed.

Lemma drop_all (n : nat) :
  forall s, (String.length s <= n)%nat -> drop n s = "".
Proof.
  induction n as [|n IH]; intros [|c s] Hn; cbn [drop String.length] in *;
    try reflexivity; try lia.
  apply IH. lia.
Qed.

Lemma drop_app (n : nat) :
  forall u post,
    (n <= String.length u)%nat -> drop n (u ++ post) = (drop n u ++ post)%string.
Proof.
  induction n as [|n IH]; intros [|c u] post Hn; cbn [String.length] in *; try lia.
  - destruct post; reflexivity.
  - reflexivity.
  - cbn [append drop]. apply IH. lia.
Qed.

Lemma drop_all_class (n : nat) :
  forall s, all_class s = true -> all_class (drop n s) = true.
Proof.
  induction n as [|n IH]; intros [|c s] Hs; cbn [drop]; try assumption.
  cbn [all_class] in Hs. apply andb_true_iff in Hs. now apply IH.
Qed.

(** Passing the rest of a match is dropping that many characters. *)
Lemma scan_skip (s : string) :
  forall n, WalletRegex.scan n s = WalletRegex.scan 0 (drop n s).
Proof.
  induction s as [|c s IH]; intros [|n]; try reflexivity.
  cbn [WalletRegex.scan drop]. apply IH.
Qed.

Lemma scan_match (s t : string) :
  WalletRegex.match_at s = Some t ->
  WalletRegex.scan 0 s = t :: WalletRegex.scan 0 (drop (String.length t) s).
Proof.
  intros Hm. destruct (match_at_Some s t Hm) as (_ & Hlen & _).
  destruct s as [|c s].
  - apply match_at_leading in Hm. cbn in Hm. lia.
  - cbn [WalletRegex.scan]. rewrite Hm, scan_skip.
    destruct (String.length t) as [|k]; [lia |].
    cbn [drop Nat.sub]. now rewrite ?Nat.sub_0_r.
Qed.

Lemma scan_outside (d : ascii) (s : string) :
  WalletRegex.in_class d = false ->
  WalletRegex.scan 0 (String d s) = WalletRegex.scan 0 s.
Proof.
  intros Hd. cbn [WalletRegex.scan]. now rewrite (match_at_outside d s Hd).
Qed.

(** A run shorter than 32 gives no match at any of its positions. *)
Lemma scan_short_run (u post : string) :
  all_class u = true ->
  (String.length u < 32)%nat ->
  starts_outside post = true ->
  WalletRegex.scan 0 (u ++ post) = WalletRegex.scan 0 post.
Proof.
  intros Hu Hlen Hpost. induction u as [|c u IH]; [reflexivity |].
  assert (Hnone : WalletRegex.match_at (String c u ++ post) = None).
  { unfold WalletRegex.match_at. cbv zeta.
    rewrite (take_class_run _ post Hu Hpost 44), substring_length_min.
    assert (H : (32 <=? Nat.min 44 (String.length (String c u)))%nat = false)
      by (apply Nat.leb_gt; lia).
    now rewrite H. }
  change (String c u ++ post)%string with (String c (u ++ post)) in *.
  cbn [WalletRegex.scan]. rewrite Hnone.
  cbn [all_class] in Hu. apply andb_true_iff in Hu. destruct Hu as [_ Hu].
  cbn [String.length] in Hlen. apply IH; [exact Hu | lia].
Qed.

Lemma chunks_upto_empty (n : nat) : chunks_upto n "" = [].
Proof. destruct n; reflexivity. Qed.

Lemma chunks_upto_enough (n : nat) :
  forall m u,
    (String.length u <= n)%nat -> (String.length u <= m)%nat ->
    chunks_upto n u = chunks_upto m u.
Proof.
  induction n as [|n IH]; intros m u Hn Hm.
  - destruct u; [| cbn in Hn; lia]. now rewrite !chunks_upto_empty.
  - destruct m as [|m].
    + destruct u; [| cbn in Hm; lia]. now rewrite !chunks_upto_empty.
    + cbn [chunks_upto]. destruct (String.length u <? 32)%nat; [reflexivity |].
      f_equal. apply IH; rewrite drop_length; lia.
Qed.

(** The matches found from the start of a run are the tokens of the run,
    followed by the matches of what comes after it. *)
Lemma scan_run (n : nat) :
  forall u post,
    (String.length u <= n)%nat ->
    all_class u = true ->
    starts_outside post = true ->
    WalletRegex.scan 0 (u ++ post) = chunks_upto n u ++ WalletRegex.scan 0 post.
Proof.
  induction n as [|n IH]; intros u post Hn Hu Hpost.
  - destruct u; [reflexivity | cbn in Hn; lia].
  - cbn [chunks_upto]. destruct (String.length u <? 32)%nat eqn:Hshort.
    + apply Nat.ltb_lt in Hshort. now apply scan_short_run.
    + apply Nat.ltb_ge in Hshort.
      rewrite (scan_match _ _ (match_at_run u post Hu Hshort Hpost)).
      cbn [app]. f_equal. rewrite substring_length_min.
      destruct (Nat.le_gt_cases (String.length u) 44) as [Hfit|Hlong].
      * rewrite Nat.min_r by exact Hfit.
        rewrite (drop_app (String.length u) u post (Nat.le_refl _)).
        rewrite (drop_all (String.length u) u (Nat.le_refl _)).
        rewrite (drop_all 44 u Hfit), chunks_upto_empty. reflexivity.
      * rewrite Nat.min_l by lia. rewrite (drop_app 44 u post) by lia.
        apply IH; [rewrite drop_length; lia | now apply drop_all_class | exact Hpost].
Qed.

Lemma scan_run_chunks (u post : string) :
  all_class u = true ->
  starts_outside post = true ->
  WalletRegex.scan 0 (u ++ post) = chunks u ++ WalletRegex.scan 0 post.
Proof. intros Hu Hpost. now apply scan_run. Qed.

(** A string is a run of alphabet characters followed by something that
    does not start with one. *)
Lemma split_leading (s : string) :
  exists u post,
    s = (u ++ post)%string /\ all_class u = true /\ starts_outside post = true.
Proof.
  induction s as [|c s (u & post & Heq & Hu & Hpost)].
  - now exists "", "".
  - destruct (WalletRegex.in_class c) eqn:Hc.
    + exists (String c u), post. cbn [append all_class]. rewrite Hc, Hu, <- Heq.
      now repeat split.
    + exists "", (String c s). cbn [append all_class starts_outside]. rewrite Hc.
      now repeat split.
Qed.

Lemma ends_outside_snoc (x : string) (d : ascii) :
  WalletRegex.in_class d = false -> ends_outside (x ++ String d "") = true.
Proof.
  intros Hd. induction x as [|c x IH]; cbn [append ends_outside].
  - now rewrite Hd.
  - destruct x; exact IH.
Qed.

(** What is found from a position between two runs is found in the whole
    line. *)
Lemma scan_reach (s x : string) :
  In x (WalletRegex.scan 0 s) ->
  forall pre skip,
    ends_outside pre = true ->
    (skip <= leading_class (pre ++ s))%nat ->
    (pre = "" -> skip = 0%nat) ->
    In x (WalletRegex.scan skip (pre ++ s)).
Proof.
  intros Hx. induction pre as [|c pre IH]; intros skip Hpre Hskip Hzero.
  - rewrite (Hzero eq_refl). exact Hx.
  - change (String c pre ++ s)%string with (String c (pre ++ s)) in *.
    cbn [WalletRegex.scan leading_class] in *.
    destruct pre as [|d pre].
    + cbn [ends_outside] in Hpre. apply negb_true_iff in Hpre.
      rewrite Hpre in Hskip. assert (skip = 0%nat) by lia. subst skip.
      rewrite (match_at_outside c _ Hpre).
      apply IH; [reflexivity | lia | reflexivity].
    + assert (Hpre' : ends_outside (String d pre) = true) by exact Hpre.
      destruct skip as [|k].
      * destruct (WalletRegex.match_at _) as [t'|] eqn:Hm.
        -- right. apply IH; [exact Hpre' | | discriminate].
           apply match_at_leading in Hm. cbn [leading_class] in Hm.
           destruct (WalletRegex.in_class c); lia.
        -- apply IH; [exact Hpre' | lia | discriminate].
      * apply IH; [exact Hpre' | | discriminate].
        destruct (WalletRegex.in_class c); lia.
Qed.

(** Every match of a line is a token of one of its maximal runs. *)
Lemma scan_tokens_of_runs (n : nat) :
  forall s pre a,
    (String.length s <= n)%nat ->
    ends_outside pre = true ->
    In a (WalletRegex.scan 0 s) ->
    exists t, MaximalRun t (pre ++ s) /\ In a (chunks t).
Proof.
  induction n as [|n IH]; intros s pre a Hn Hpre Ha.
  - destruct s; [destruct Ha | cbn in Hn; lia].
  - destruct (split_leading s) as (u & post & -> & Hu & Hpost).
    rewrite (scan_run_chunks u post Hu Hpost) in Ha.
    apply in_app_or in Ha. destruct Ha as [Ha|Ha].
    + exists u. split; [| exact Ha].
      exists pre, post. split; [reflexivity |]. split; [| now repeat split].
      intros ->. cbn in Ha. exact Ha.
    + destruct post as [|d post]; [destruct Ha |].
      cbn [starts_outside] in Hpost. apply negb_true_iff in Hpost.
      rewrite (scan_outside d post Hpost) in Ha.
      rewrite append_length in Hn. cbn [String.length] in Hn.
      destruct (IH post (pre ++ u ++ String d "")%string a) as (t & Hrun & Ht).
      * lia.
      * rewrite <- append_assoc3. now apply ends_outside_snoc.
      * exact Ha.
      * exists t. split; [| exact Ht].
        rewrite !append_assoc3 in Hrun. exact Hrun.
Qed.

(** The matches of a line are exactly the tokens of its maximal runs. *)
Lemma match_all_iff (line a : string) :
  In a (WalletRegex.match_all line)
  <-> exists t, MaximalRun t line /\ In a (chunks t).
Proof.
  unfold WalletRegex.match_all. split.
  - intros Ha.
    exact (scan_tokens_of_runs (String.length line) line "" a (Nat.le_refl _) eq_refl Ha).
  - intros (t & (pre & post & -> & _ & Ht & Hpre & Hpost) & Ha).
    apply scan_reach; [| exact Hpre | lia | reflexivity].
    rewrite (scan_run_chunks t post Ht Hpost). apply in_or_app. now left.
Qed.

Lemma chunks_short (t : string) :
  (String.length t < 32)%nat -> chunks t = [].
Proof.
  intros Hlen. unfold chunks. destruct (String.length t) as [|k] eqn:Hk; [reflexivity |].
  cbn [chunks_upto]. rewrite Hk.
  assert (H : (S k <? 32)%nat = true) by (apply Nat.ltb_lt; lia). now rewrite H.
Qed.

Lemma chunks_long (t : string) :
  (32 <= String.length t)%nat ->
  chunks t = substring 0 44 t :: chunks (drop 44 t).
Proof.
  intros Hlen. unfold chunks. destruct (String.length t) as [|k] eqn:Hk; [lia |].
  cbn [chunks_upto]. rewrite Hk.
  assert (H : (S k <? 32)%nat = false) by (apply Nat.ltb_ge; lia). rewrite H.
  f_equal. apply chunks_upto_enough; rewrite drop_length; lia.
Qed.

Lemma chunks_fits (t : string) :
  (32 <= String.length t <= 44)%nat -> chunks t = [t].
Proof.
  intros Hlen. rewrite chunks_long by lia.
  rewrite substring_all by lia. rewrite (drop_all 44 t) by lia. reflexivity.
Qed.

(** C8, as the code has it: the extractor returns, each exactly once however
    often it occurs across the lines, exactly the tokens of the maximal
    alphabet runs of the lines, each token made of 32 to 44 alphabet
    characters, where a run shorter than 32 characters has no
    token, a run of 32 to 44 characters has one token, itself, and a run
    longer than 44 characters has its first 44 characters as a token and then
    the tokens of what is left of it after them.  So when no maximal run is
    longer than 44 characters the result is exactly the set of the maximal
    runs whose length lies in [32,44]. *)
Theorem extractWalletAddresses_tokens (lines : list string) :
  NoDup (extractWalletAddresses lines)
  /\ (forall a,
        In a (extractWalletAddresses lines) ->
        all_class a = true /\ (32 <= String.length a <= 44)%nat)
  /\ (forall a,
        In a (extractWalletAddresses lines)
        <-> exists line t, In line lines /\ MaximalRun t line /\ In a (chunks t))
  /\ (forall t,
        ((String.length t < 32)%nat -> chunks t = [])
        /\ ((32 <= String.length t <= 44)%nat -> chunks t = [t])
        /\ ((44 < String.length t)%nat ->
            chunks t = substring 0 44 t :: chunks (drop 44 t)))
  /\ ((forall line t, In line lines -> MaximalRun t line ->
                      (String.length t <= 44)%nat) ->
      forall a,
        In a (extractWalletAddresses lines)
        <-> exists line, In line lines /\ MaximalRun a line
                         /\ (32 <= String.length a <= 44)%nat).
Proof.
  assert (Hiff : forall a,
             In a (extractWalletAddresses lines)
             <-> exists line t, In line lines /\ MaximalRun t line /\ In a (chunks t)).
  { intros a. rewrite extractWalletAddresses_In. split.
    - intros (line & Hl & Hm). apply match_all_iff in Hm.
      destruct Hm as (t & Hrun & Ht). now exists line, t.
    - intros (line & t & Hl & Hrun & Ht). exists line. split; [exact Hl |].
      apply match_all_iff. now exists t. }
  split; [apply extract_fold_NoDup; constructor |].
  split.
  { intros a Ha. apply extractWalletAddresses_In in Ha. destruct Ha as [line [_ Hm]].
    destruct (scan_sound line 0 a Hm) as (H1 & H2 & _). now split. }
  split; [exact Hiff |]. split.
  - intros t. split; [apply chunks_short |]. split; [apply chunks_fits |].
    intros Hlong. apply chunks_long. lia.
  - intros Hnolong a. rewrite Hiff. split.
    + intros (line & t & Hl & Hrun & Ht). exists line. split; [exact Hl |].
      specialize (Hnolong line t Hl Hrun).
      destruct (Nat.lt_ge_cases (String.length t) 32) as [Hshort|Hok].
      * rewrite (chunks_short t Hshort) in Ht. destruct Ht.
      * rewrite (chunks_fits t) in Ht by lia. destruct Ht as [<-|[]].
        split; [exact Hrun | lia].
    + intros (line & Hl & Hrun & Hlen). exists line, a.
      split; [exact Hl |]. split; [exact Hrun |].
      rewrite (chunks_fits a Hlen). now left.
Qed.

(** An address that two lines of one notification mention is returned once;
    and two lines that are the address and nothing else give that address
    and no other token. *)
Lemma extractWalletAddresses_tokens_witness :
  let wallet := "7xKXtg2CW87d97TXJSDpbD5jBkheTqA83TZRuJosgAsU" in
  let line := ("Program X invoke [1] wallet=" ++ wallet)%string in
  In wallet (extractWalletAddresses [line; line])
  /\ NoDup (extractWalletAddresses [line; line])
  /\ extractWalletAddresses [line; line] = [wallet]
  /\ (forall a, In a (extractWalletAddresses [wallet; wallet]) <-> a = wallet).
Proof.
  intros wallet line.
  destruct (extractWalletAddresses_tokens [line; line]) as (Hnd & _ & Hiff & _ & _).
  destruct (extractWalletAddresses_tokens [wallet; wallet]) as (_ & _ & _ & _ & Hexact).
  assert (Hclass : all_class wallet = true) by (vm_compute; reflexivity).
  assert (Hlen : String.length wallet = 44%nat) by (vm_compute; reflexivity).
  assert (Hself : MaximalRun wallet wallet).
  { exists "", "". split; [vm_compute; reflexivity |]. split; [discriminate |].
    repeat split; assumption. }
  assert (Honly : forall l t, In l [wallet; wallet] -> MaximalRun t l -> t = wallet).
  { intros l t Hl Hrun. assert (Hlw : l = wallet) by (destruct Hl as [<-|[<-|[]]]; reflexivity).
    rewrite Hlw in Hrun. exact (maximal_run_of_run t wallet Hclass Hrun). }
  split; [| split; [exact Hnd | split; [vm_compute; reflexivity |]]].
  - apply Hiff. exists line, wallet. split; [now left |]. split.
    + exists "Program X invoke [1] wallet=", "".
      split; [vm_compute; reflexivity |]. split; [discriminate |].
      repeat split; try assumption; vm_compute; reflexivity.
    + vm_compute. now left.
  - intros a. rewrite Hexact.
    + split.
      * intros (l & Hl & Hrun & _). exact (Honly l a Hl Hrun).
      * intros ->. exists wallet. split; [now left |]. split; [exact Hself | lia].
    + intros l t Hl Hrun. rewrite (Honly l t Hl Hrun). lia.
Defined.

(** C8, as stated, fails: a line that is one run of 45 alphabet characters
    has no maximal run of a length in [32,44], and yet the extractor returns
    the first 44 characters of it. *)
Lemma long_run_is_cut_not_skipped :
  let line := replicate 45 "A" in
  let token := replicate 44 "A" in
  extractWalletAddresses [line] = [token]
  /\ ~ MaximalRun token line
  /\ ~ extracts_maximal_runs.
Proof.
  intros line token.
  assert (Hex : extractWalletAddresses [line] = [token]) by (vm_compute; reflexivity).
  assert (Hnot : ~ MaximalRun token line).
  { intros Hrun. apply maximal_run_of_run in Hrun; [| vm_compute; reflexivity].
    apply (f_equal String.length) in Hrun. vm_compute in Hrun. discriminate. }
  split; [exact Hex |]. split; [exact Hnot |].
  intros Hclaim. destruct (proj1 (Hclaim [line] token)) as [l [Hl [Hrun _]]].
  - rewrite Hex. now left.
  - destruct Hl as [<-|[]]. exact (Hnot Hrun).
Qed.

(** ** Start-up validation *)

Lemma validateEnv_cases (env : string -> option string) (vars : list string) :
  (validateEnv env vars = []
   /\ forall v, In v vars -> exists s, env v = Some s /\ s <> "")
  \/ (validateEnv env vars
      = [ConsoleError "Missing required environment variable:"; ProcessExit 1]
      /\ exists v, In v vars /\ (env v = None \/ env v = Some "")).
Proof.
  induction vars as [|v rest IH]; cbn [validateEnv].
  - left. split; [reflexivity | intros v []].
  - destruct (env v) as [s|] eqn:Hv; cbn [JS.truthy_opt negb].
    + unfold JS.truthy_str. destruct (String.eqb_spec s "") as [->|Hne]; cbn [negb].
      * right. split; [reflexivity |]. exists v. split; [now left | now right].
      * destruct IH as [[Hnil Hall]|[Hexit [w [Hw Hbad]]]].
        -- left. split; [exact Hnil |]. intros w [<-|Hw]; [now exists s | now apply Hall].
        -- right. split; [exact Hexit |]. exists w. split; [now right | exact Hbad].
    + right. split; [reflexivity |]. exists v. split; [now left | now left].
Qed.

(** X1: the service starts (the validation loop does nothing) exactly when
    SUPABASE_URL, SUPABASE_SERVICE_ROLE_KEY and CHAINSTACK_WSS_URL are all set
    to a non-empty value; otherwise it reports a missing variable and exits
    with code 1.  The optional CHAINSTACK_HTTP_URL and CHAINSTACK_API_KEY
    play no part. *)
Theorem validateEnv_required_only (env : string -> option string) :
  (validateEnv env requiredEnvVars = []
   <-> forall v, In v requiredEnvVars -> exists s, env v = Some s /\ s <> "")
  /\ (validateEnv env requiredEnvVars = []
      \/ validateEnv env requiredEnvVars
         = [ConsoleError "Missing required environment variable:"; ProcessExit 1]).
Proof.
  destruct (validateEnv_cases env requiredEnvVars) as [[Hnil Hall]|[Hexit [v [Hv Hbad]]]].
  - split; [split; [intros _; exact Hall | intros _; exact Hnil] | now left].
  - split; [| now right]. split.
    + rewrite Hexit. discriminate.
    + intros Hall. destruct (Hall v Hv) as [s [Hs Hne]].
      destruct Hbad as [Hbad|Hbad]; rewrite Hs in Hbad; [discriminate |].
      injection Hbad as ->. contradiction.
Qed.

(** ** Subscriptions and the socket's state *)

(** X2: [subscribeToLogs] sends nothing exactly when the socket is not in
    the OPEN state (no socket yet, connecting, closing or closed). *)
Theorem subscribeToLogs_needs_open_socket (m : SolanaMonitor) :
  sent (subscribeToLogs m) = [] <-> ws m <> Some OPEN.
Proof.
  split.
  - intros Hnone Hopen. rewrite (sent_subscribeToLogs m Hopen) in Hnone. discriminate.
  - intros Hclosed. unfold subscribeToLogs.
    destruct (ws m) as [[| | |]|]; try reflexivity. now contradiction Hclosed.
Qed.

Lemma fold_add_In (xs : list string) :
  forall acc y,
    In y (fold_left (JS.add String.eqb) xs acc) <-> In y acc \/ In y xs.
Proof.
  induction xs as [|x xs IH]; intros acc y; cbn [fold_left].
  - simpl. tauto.
  - rewrite IH, add_In. simpl. intuition (subst; auto).
Qed.

(** X3: a successful wallet load replaces the tracked set by the addresses
    of the rows, each once; a load that fails (the store reports an error or
    the call throws) leaves the monitor as it was. *)
Theorem loadTrackedWallets_replaces_or_keeps (m : SolanaMonitor) (reply : LoadReply) :
  match reply with
  | LoadData rows =>
      NoDup (trackedWallets (fst (loadTrackedWallets m reply)))
      /\ (forall w, In w (trackedWallets (fst (loadTrackedWallets m reply))) <-> In w rows)
      /\ (NoDup rows -> trackedWallets (fst (loadTrackedWallets m reply)) = rows)
  | LoadError | LoadThrows => fst (loadTrackedWallets m reply) = m
  end.
Proof.
  destruct reply as [rows| |]; try reflexivity.
  cbn [loadTrackedWallets fst trackedWallets set_trackedWallets].
  split; [apply from_list_NoDup |]. split.
  - intros w. unfold JS.from_list. rewrite fold_add_In. simpl. tauto.
  - apply from_list_distinct.
Qed.

(** X4: a refresh while the monitor is not connected sends no subscribe
    request, whatever the store answers; the wallets it loaded are
    subscribed to by the next opening of the socket, after the programs. *)
Theorem refresh_while_disconnected (m : SolanaMonitor) (reply : LoadReply) :
  isConnected m = false ->
  let m' := fst (refreshTrackedWallets m reply) in
  sent (snd (refreshTrackedWallets m reply)) = []
  /\ map sub_mentions (sent (snd (onopen m')))
     = map (fun topic => [topic]) (ACTIVE_DEX_PROGRAMS ++ trackedWallets m')
  /\ forall rows, reply = LoadData rows ->
       trackedWallets m' = JS.from_list String.eqb rows.
Proof.
  intros Hoff m'. subst m'. unfold refreshTrackedWallets.
  destruct (sent_loadTrackedWallets m reply) as [Hs [_ Hc]].
  destruct (loadTrackedWallets m reply) as [m1 es] eqn:Hload. cbn [fst snd] in *.
  split; [| split].
  - rewrite !sent_app, Hs, Hc, Hoff. reflexivity.
  - unfold onopen. cbn [snd]. rewrite sent_app. cbn [sent app].
    rewrite sent_subscribeToLogs by reflexivity. apply numbered_mentions.
  - intros rows ->. cbn in Hload. now injection Hload as <- _.
Qed.

Lemma refresh_while_disconnected_witness :
  let m := fst (refreshTrackedWallets constructor (LoadData [RAYDIUM; RAYDIUM; ORCA])) in
  sent (snd (refreshTrackedWallets constructor (LoadData [RAYDIUM; RAYDIUM; ORCA]))) = []
  /\ trackedWallets m = [RAYDIUM; ORCA]
  /\ List.length (sent (snd (onopen m))) = 8%nat.
Proof.
  intros m.
  destruct (refresh_while_disconnected constructor (LoadData [RAYDIUM; RAYDIUM; ORCA])
              eq_refl) as (Hnone & Hopen & Hset).
  split; [exact Hnone |]. split; [exact (Hset _ eq_refl) |].
  fold m in Hopen. apply (f_equal (@List.length _)) in Hopen.
  rewrite !length_map in Hopen. exact Hopen.
Defined.

(** ** Giving up and starting over *)

(** X5: for a running monitor, the closing of the socket ends the process
    (code 1, no timer scheduled) exactly when ten reconnects have already
    been scheduled since the last opening; otherwise it schedules exactly one
    reconnect, after the current delay, and counts it. *)
Theorem close_exits_after_ten_attempts
    (storeReply : CandidateWallet -> StoreReply) (events : list Event)
    (m : SolanaMonitor) :
  fst (run storeReply (Running constructor) events) = Running m ->
  (fst (onclose m) = Exited 1 <-> reconnectAttempts m = 10%Z)
  /\ (reconnectAttempts m = 10%Z ->
      scheduled (snd (onclose m)) = []
      /\ In (ProcessExit 1) (snd (onclose m)))
  /\ (reconnectAttempts m <> 10%Z ->
      scheduled (snd (onclose m)) = [reconnectDelay m]
      /\ exists m', fst (onclose m) = Running m'
                    /\ reconnectAttempts m' = (reconnectAttempts m + 1)%Z
                    /\ isConnected m' = false
                    /\ subscriptionIds m' = []).
Proof.
  intros Hrun.
  assert (Hinv : invariant m)
    by exact (invariant_run storeReply events constructor m invariant_constructor Hrun).
  destruct Hinv as (_ & _ & _ & Ha & Hmax).
  unfold onclose, handleReconnect.
  cbn [maxReconnectAttempts reconnectAttempts set_subscriptionIds set_isConnected set_ws].
  rewrite Hmax.
  destruct (10 <=? reconnectAttempts m)%Z eqn:Hcmp.
  - apply Z.leb_le in Hcmp. assert (Heq : reconnectAttempts m = 10%Z) by lia.
    split; [split; [intros _; exact Heq | reflexivity] |].
    split; [intros _; split; [reflexivity | simpl; tauto] | intros Hne; contradiction].
  - apply Z.leb_gt in Hcmp.
    split; [split; [discriminate | lia] |].
    split; [lia |]. intros _. split; [reflexivity |].
    eexists. split; [reflexivity |]. repeat split.
Qed.

Lemma close_exits_after_ten_attempts_witness :
  let storeReply := fun _ : CandidateWallet => StoreOk in
  let m := monitor_of (fst (run storeReply (Running constructor)
                              (List.concat (repeat failed_attempt 10)))) in
  reconnectAttempts m = 10%Z
  /\ fst (onclose m) = Exited 1
  /\ scheduled (snd (onclose m)) = [].
Proof.
  intros storeReply m.
  assert (Hrun : fst (run storeReply (Running constructor)
                        (List.concat (repeat failed_attempt 10))) = Running m)
    by (vm_compute; reflexivity).
  assert (Hten : reconnectAttempts m = 10%Z) by (vm_compute; reflexivity).
  destruct (close_exits_after_ten_attempts storeReply _ m Hrun) as (Hiff & Hexit & _).
  split; [exact Hten |]. split; [now apply Hiff | exact (proj1 (Hexit Hten))].
Defined.

(** X6: once the socket has opened, the history of failures is forgotten:
    the next closing schedules its reconnect after 5000 ms, as attempt 1, and
    leaves 7500 ms for the one after. *)
Theorem open_then_close_starts_backoff_over (m : SolanaMonitor) :
  (0 < maxReconnectAttempts m)%Z ->
  scheduled (snd (onclose (fst (onopen m)))) = [5000%float]
  /\ exists m', fst (onclose (fst (onopen m))) = Running m'
                /\ reconnectAttempts m' = 1%Z
                /\ reconnectDelay m' = 7500%float.
Proof.
  intros Hmax. unfold onclose, onopen, handleReconnect.
  cbn [fst maxReconnectAttempts reconnectAttempts reconnectDelay set_subscriptionIds
       set_isConnected set_ws set_reconnectAttempts set_reconnectDelay].
  assert (Hcmp : (maxReconnectAttempts m <=? 0)%Z = false) by (apply Z.leb_gt; lia).
  rewrite Hcmp. split; [reflexivity |].
  eexists. split; [reflexivity |]. split; [reflexivity | vm_compute; reflexivity].
Qed.

Lemma open_then_close_starts_backoff_over_witness :
  let m := monitor_of (fst (run (fun _ => StoreOk) (Running constructor)
                              (List.concat (repeat failed_attempt 9)))) in
  reconnectAttempts m = 9%Z
  /\ scheduled (snd (onclose (fst (onopen m)))) = [5000%float].
Proof.
  intros m. split; [vm_compute; reflexivity |].
  exact (proj1 (open_then_close_starts_backoff_over m ltac:(vm_compute; reflexivity))).
Defined.

(** ** The sets stay sets *)

Lemma add_NoDup_Z (s : list Z) (x : Z) : NoDup s -> NoDup (JS.add Z.eqb s x).
Proof.
  intros Hnd. unfold JS.add, JS.has. destruct (existsb (Z.eqb x) s) eqn:Hhas; [exact Hnd |].
  apply NoDup_app; [exact Hnd | repeat constructor; simpl; tauto |].
  intros y Hy [<-|[]].
  assert (Hex : existsb (Z.eqb x) s = true)
    by (apply existsb_exists; exists x; split; [exact Hy | apply Z.eqb_refl]).
  rewrite Hex in Hhas. discriminate.
Qed.

Lemma handleMessage_sets
    (storeReply : CandidateWallet -> StoreReply) (m : SolanaMonitor)
    (data : option Message) :
  trackedWallets (fst (handleMessage storeReply m data)) = trackedWallets m
  /\ (subscriptionIds (fst (handleMessage storeReply m data)) = subscriptionIds m
      \/ exists S, subscriptionIds (fst (handleMessage storeReply m data))
                   = JS.add Z.eqb (subscriptionIds m) S).
Proof.
  unfold handleMessage. destruct data as [message|]; [| split; [reflexivity | now left]].
  cbv zeta.
  destruct (JS.truthy_opt JS.truthy_num (msg_id message)
            && JS.truthy_opt JS.truthy_num (msg_result message)).
  { destruct (msg_result message) as [S|]; cbn; split; try reflexivity;
      [right; now exists S | now left]. }
  destruct (JS.truthy_opt JS.truthy_num (msg_id message)
            && JS.truthy_opt (fun _ => true) (msg_error message));
    [split; [reflexivity | now left] |].
  destruct (_ && _); [| split; [reflexivity | now left]].
  destruct (msg_params message) as [params|]; [| split; [reflexivity | now left]].
  pose proof (handleLogNotification_fields storeReply m (params_result params)) as H.
  destruct (handleLogNotification storeReply m (params_result params)) as [m' es].
  cbn [fst] in *. destruct H as [->|[sig ->]]; split; try reflexivity; now left.
Qed.

Lemma sets_wellformed_step
    (storeReply : CandidateWallet -> StoreReply) (m m' : SolanaMonitor) (e : Event) :
  sets_wellformed m -> fst (step storeReply m e) = Running m' -> sets_wellformed m'.
Proof.
  intros [Ht Hs].
  destruct e as [ctorThrows| |data| |rs|reply|reply]; cbn [step running fst].
  - unfold connect. destruct (isConnected m || _).
    + intros [= <-]. now split.
    + destruct ctorThrows.
      * destruct (handleReconnect m) as [p es] eqn:Hr. cbn [fst]. intros ->.
        assert (Hrun : fst (handleReconnect m) = Running m') by now rewrite Hr.
        apply handleReconnect_running in Hrun. destruct Hrun as [_ ->]. now split.
      * intros [= <-]. now split.
  - intros [= <-]. now split.
  - intros [= <-]. destruct (handleMessage_sets storeReply m data) as [Htr [Hids|[S Hids]]];
      unfold sets_wellformed; rewrite Htr, Hids; split; try assumption.
    now apply add_NoDup_Z.
  - unfold onclose. set (m2 := set_subscriptionIds _ _).
    destruct (handleReconnect m2) as [p es] eqn:Hr. cbn [fst]. intros ->.
    assert (Hrun : fst (handleReconnect m2) = Running m') by now rewrite Hr.
    apply handleReconnect_running in Hrun. destruct Hrun as [_ ->].
    split; [exact Ht | constructor].
  - intros [= <-]. now split.
  - intros [= <-]. destruct reply; split; try assumption. apply from_list_NoDup.
  - intros [= <-]. unfold refreshTrackedWallets.
    destruct reply; split; try assumption. apply from_list_NoDup.
Qed.

Lemma sets_wellformed_run
    (storeReply : CandidateWallet -> StoreReply) (events : list Event) :
  forall m m',
    sets_wellformed m ->
    fst (run storeReply (Running m) events) = Running m' ->
    sets_wellformed m'.
Proof.
  induction events as [|e rest IH]; intros m m' Hwf; cbn [run fst].
  - intros [= <-]. exact Hwf.
  - destruct (step storeReply m e) as [p es] eqn:Hstep.
    destruct p as [m1|code].
    + destruct (run storeReply (Running m1) rest) as [p2 es2] eqn:Hrun. cbn [fst].
      intros ->. apply (IH m1 m').
      * apply (sets_wellformed_step storeReply m m1 e Hwf). now rewrite Hstep.
      * now rewrite Hrun.
    + destruct rest; cbn; discriminate.
Qed.

(** X7: whatever the process has gone through, the status it reports is
    bounded and free of repetitions: at most 1000 processed transactions,
    a reconnect counter between 0 and 10, no subscription id listed twice,
    and the count of tracked wallets is the count of distinct addresses. *)
Theorem getStatus_is_bounded
    (storeReply : CandidateWallet -> StoreReply) (events : list Event)
    (m : SolanaMonitor) :
  fst (run storeReply (Running constructor) events) = Running m ->
  (status_processedTransactions (getStatus m) <= 1000)%nat
  /\ (0 <= status_reconnectAttempts (getStatus m) <= 10)%Z
  /\ NoDup (status_subscriptionIds (getStatus m))
  /\ NoDup (trackedWallets m)
  /\ status_trackedWallets (getStatus m) = List.length (trackedWallets m).
Proof.
  intros Hrun.
  assert (Hinv : invariant m)
    by exact (invariant_run storeReply events constructor m invariant_constructor Hrun).
  assert (Hwf : sets_wellformed m).
  { apply (sets_wellformed_run storeReply events constructor m); [| exact Hrun].
    split; constructor. }
  destruct Hinv as (_ & Hlen & _ & Ha & _). destruct Hwf as [Ht Hs].
  cbn. repeat split; try assumption; lia.
Qed.

Lemma getStatus_is_bounded_witness :
  let storeReply := fun _ : CandidateWallet => StoreOk in
  let events :=
    [WalletsLoaded (LoadData [RAYDIUM; RAYDIUM]); Connect false; SocketOpen;
     SocketMessage (Some (ack 1 100)); SocketMessage (Some (ack 2 100))] in
  let m := monitor_of (fst (run storeReply (Running constructor) events)) in
  getStatus m = mkStatus true 1 [100%Z] 0 0
  /\ NoDup (status_subscriptionIds (getStatus m)).
Proof.
  intros storeReply events m. split; [vm_compute; reflexivity |].
  assert (Hrun : fst (run storeReply (Running constructor) events) = Running m)
    by (vm_compute; reflexivity).
  destruct (getStatus_is_bounded storeReply events m Hrun) as (_ & _ & Hnd & _).
  exact Hnd.
Defined.

(** ** What the dispatcher does and does not do *)

Lemma sent_quickWalletDiscovery
    (storeReply : CandidateWallet -> StoreReply)
    (sig : string) (valueData : LogValue) (contextData : option LogContext) :
  sent (quickWalletDiscovery storeReply sig valueData contextData) = []
  /\ scheduled (quickWalletDiscovery storeReply sig valueData contextData) = [].
Proof.
  unfold quickWalletDiscovery.
  destruct (0 <? _)%nat; [| now split]. cbn [sent scheduled].
  induction (extractWalletAddresses _) as [|a rest [IH1 IH2]]; [now split |].
  cbn [flat_map]. unfold analyzeWalletProfitability at 1 3.
  destruct (storeReply _); cbn [app sent scheduled]; now split.
Qed.

Lemma sent_handleLogNotification
    (storeReply : CandidateWallet -> StoreReply) (m : SolanaMonitor)
    (logEntry : option LogEntry) :
  sent (snd (handleLogNotification storeReply m logEntry)) = []
  /\ scheduled (snd (handleLogNotification storeReply m logEntry)) = [].
Proof.
  unfold handleLogNotification.
  destruct logEntry as [[contextData [valueData|]]|]; try (now split).
  destruct (signature valueData) as [sig|]; try (now split).
  destruct (negb (JS.truthy_str sig)); try (now split).
  destruct (JS.has String.eqb (processedTransactions m) sig); try (now split).
  destruct (logs valueData) as [lines|] eqn:Hlogs; try (now split).
  destruct (isDEXTransaction lines); try (now split).
  cbn [snd app sent scheduled processTransaction].
  apply sent_quickWalletDiscovery.
Qed.

(** The store writes of a notification: none, or one candidate row per
    extracted address, carrying the notification's signature. *)
Lemma upserts_handleLogNotification
    (storeReply : CandidateWallet -> StoreReply) (m : SolanaMonitor)
    (logEntry : option LogEntry) :
  upserts (snd (handleLogNotification storeReply m logEntry)) = []
  \/ exists contextData sig lines,
       entry_signature logEntry = Some sig
       /\ upserts (snd (handleLogNotification storeReply m logEntry))
          = map (fun walletAddress => candidate walletAddress sig contextData)
              (extractWalletAddresses lines).
Proof.
  unfold handleLogNotification.
  destruct logEntry as [[contextData [valueData|]]|]; try (now left).
  destruct (signature valueData) as [sig|] eqn:Hsig; try (now left).
  destruct (negb (JS.truthy_str sig)); try (now left).
  destruct (JS.has String.eqb (processedTransactions m) sig); try (now left).
  destruct (logs valueData) as [lines|] eqn:Hlogs; try (now left).
  destruct (isDEXTransaction lines); try (now left).
  right. exists contextData, sig, lines. split; [exact Hsig |].
  cbn [snd app upserts processTransaction].
  now rewrite upserts_quickWalletDiscovery, Hlogs.
Qed.

(** X8: handling a frame never sends anything on the socket and never
    schedules a timer; it leaves the socket, the connection flag, the backoff
    state and the tracked wallets as they were; and a frame that is not
    tagged [logsNotification] (an ack, an error, anything unrecognised or
    unparsable) writes nothing to the store and leaves the dedup cache
    alone. *)
Theorem handleMessage_is_passive
    (storeReply : CandidateWallet -> StoreReply) (m : SolanaMonitor)
    (data : option Message) :
  let m' := fst (handleMessage storeReply m data) in
  let es := snd (handleMessage storeReply m data) in
  (sent es = [] /\ scheduled es = [])
  /\ (ws m' = ws m /\ isConnected m' = isConnected m
      /\ reconnectAttempts m' = reconnectAttempts m
      /\ reconnectDelay m' = reconnectDelay m
      /\ trackedWallets m' = trackedWallets m)
  /\ ((forall message, data = Some message ->
                       msg_method message <> Some "logsNotification") ->
      upserts es = [] /\ processedTransactions m' = processedTransactions m).
Proof.
  intros m' es. subst m' es.
  destruct data as [message|]; [| repeat split].
  unfold handleMessage. cbv zeta.
  assert (Hrecv : forall b : bool,
             sent (if b then [] else [ConsoleLog "WebSocket message received:"]) = []
             /\ scheduled (if b then [] else [ConsoleLog "WebSocket message received:"]) = []
             /\ upserts (if b then [] else [ConsoleLog "WebSocket message received:"]) = [])
    by (intros [|]; repeat split).
  set (isNotification :=
         match msg_method message with
         | Some name => (name =? "logsNotification")%string
         | None => false
         end).
  destruct (Hrecv isNotification) as (Hr1 & Hr2 & Hr3).
  set (received := if isNotification then [] else [ConsoleLog "WebSocket message received:"]) in *.
  destruct (JS.truthy_opt JS.truthy_num (msg_id message)
            && JS.truthy_opt JS.truthy_num (msg_result message)).
  { destruct (msg_result message) as [S|]; cbn [fst snd];
      rewrite ?sent_app, ?upserts_app, ?Hr1, ?Hr2, ?Hr3; repeat split; try assumption.
    - clear -Hr2. induction received as [|e r IH]; [reflexivity |].
      destruct e; cbn in *; try discriminate; auto. }
  destruct (JS.truthy_opt JS.truthy_num (msg_id message)
            && JS.truthy_opt (fun _ => true) (msg_error message)).
  { cbn [fst snd]. rewrite ?sent_app, ?upserts_app, ?Hr1, ?Hr3. repeat split.
    clear -Hr2. induction received as [|e r IH]; [reflexivity |].
    destruct e; cbn in *; try discriminate; auto. }
  destruct (isNotification && JS.truthy_opt (fun _ => true) (msg_params message)) eqn:Hnote;
    [| cbn [fst snd]; repeat split; assumption].
  destruct (msg_params message) as [params|]; [| cbn [fst snd]; repeat split; assumption].
  pose proof (handleLogNotification_fields storeReply m (params_result params)) as Hf.
  pose proof (sent_handleLogNotification storeReply m (params_result params)) as [Hs1 Hs2].
  destruct (handleLogNotification storeReply m (params_result params)) as [m1 es1].
  cbn [fst snd] in *.
  split; [split |].
  - now rewrite sent_app, Hr1, Hs1.
  - clear -Hr2 Hs2. induction received as [|e r IH]; [exact Hs2 |].
    destruct e; cbn in *; try discriminate; auto.
  - split.
    + destruct Hf as [->|[sig ->]]; repeat split.
    + intros Hnot. exfalso. apply andb_true_iff in Hnote. destruct Hnote as [Hn _].
      subst isNotification. destruct (msg_method message) as [name|] eqn:Hm;
        [| discriminate].
      apply String.eqb_eq in Hn. subst name. exact (Hnot message eq_refl Hm).
Qed.

Lemma add_idempotent_Z (s : list Z) (x : Z) :
  JS.add Z.eqb (JS.add Z.eqb s x) x = JS.add Z.eqb s x.
Proof.
  unfold JS.add. destruct (JS.has Z.eqb s x) eqn:Hhas.
  - now rewrite Hhas.
  - assert (Hnow : JS.has Z.eqb (s ++ [x]) x = true).
    { unfold JS.has. rewrite existsb_app. cbn [existsb].
      now rewrite Z.eqb_refl, orb_true_r. }
    now rewrite Hnow.
Qed.

(** X9: the dispatcher's first test wins: a frame with a non-zero id and a
    non-zero result is taken as a confirmation whatever else it carries (an
    error, a [logsNotification] tag with a payload); its result joins the
    subscription ids, the payload is not looked at, and a second copy of the
    frame changes nothing more. *)
Theorem confirmation_wins_over_notification
    (storeReply : CandidateWallet -> StoreReply) (m : SolanaMonitor)
    (message : Message) (R S : Z) :
  msg_id message = Some R -> R <> 0%Z ->
  msg_result message = Some S -> S <> 0%Z ->
  let m' := fst (handleMessage storeReply m (Some message)) in
  m' = set_subscriptionIds m (JS.add Z.eqb (subscriptionIds m) S)
  /\ upserts (snd (handleMessage storeReply m (Some message))) = []
  /\ fst (handleMessage storeReply m' (Some message)) = m'.
Proof.
  intros HR HRne HS HSne m'. subst m'.
  assert (Hstep : forall m0,
             handleMessage storeReply m0 (Some message)
             = (set_subscriptionIds m0 (JS.add Z.eqb (subscriptionIds m0) S),
                (if match msg_method message with
                    | Some name => (name =? "logsNotification")%string
                    | None => false
                    end
                 then [] else [ConsoleLog "WebSocket message received:"])
                ++ [ConsoleLog "Subscribed to logs. Subscription ID"])).
  { intros m0. unfold handleMessage. rewrite HR, HS. cbn [JS.truthy_opt].
    unfold JS.truthy_num. apply Z.eqb_neq in HRne, HSne. now rewrite HRne, HSne. }
  rewrite !Hstep. cbn [fst snd]. split; [reflexivity |]. split.
  - rewrite upserts_app. destruct (msg_method message) as [name|]; [| reflexivity].
    destruct (name =? "logsNotification")%string; reflexivity.
  - unfold set_subscriptionIds. cbn. now rewrite add_idempotent_Z.
Qed.

Lemma confirmation_wins_over_notification_witness :
  let storeReply := fun _ : CandidateWallet => StoreOk in
  let wallet := "7xKXtg2CW87d97TXJSDpbD5jBkheTqA83TZRuJosgAsU" in
  let message :=
    {| msg_id := Some 3%Z; msg_result := Some 77%Z; msg_error := None;
       msg_method := Some "logsNotification";
       msg_params :=
         Some {| params_result :=
                   logEntry_of "5VERv8NMvzbJ" [("swap wallet=" ++ wallet)%string] 7 |} |} in
  handleMessage storeReply constructor (Some message)
  = (set_subscriptionIds constructor [77%Z],
     [ConsoleLog "Subscribed to logs. Subscription ID"]).
Proof.
  intros storeReply wallet message.
  destruct (confirmation_wins_over_notification storeReply constructor message 3 77
              eq_refl ltac:(discriminate) eq_refl ltac:(discriminate)) as [Hm _].
  rewrite (surjective_pairing (handleMessage storeReply constructor (Some message))).
  cbv zeta in Hm. rewrite Hm. reflexivity.
Defined.

(** ** Notifications seen more than once *)

Lemma handleLogNotification_known
    (storeReply : CandidateWallet -> StoreReply) (m : SolanaMonitor)
    (contextData : option LogContext) (sig : string) (lgs : option (list string)) :
  sig <> "" ->
  In sig (processedTransactions m) ->
  handleLogNotification storeReply m
    (Some {| context := contextData;
             value := Some {| signature := Some sig; logs := lgs |} |})
  = (m, []).
Proof.
  intros Hne Hin. unfold handleLogNotification. cbn [signature].
  rewrite (truthy_str_true sig Hne). cbn [negb].
  now rewrite (proj2 (has_In _ _) Hin).
Qed.

(** X10: a payload delivered twice in a row is acted on once: the second
    delivery writes nothing to the store and leaves the monitor as the first
    delivery left it, whatever the payload is. *)
Theorem immediate_redelivery_is_dropped
    (storeReply : CandidateWallet -> StoreReply) (m : SolanaMonitor)
    (logEntry : option LogEntry) :
  NoDup (processedTransactions m) ->
  let first := handleLogNotification storeReply m logEntry in
  let second := handleLogNotification storeReply (fst first) logEntry in
  fst second = fst first /\ upserts (snd second) = [].
Proof.
  intros Hnd first second. subst first second.
  destruct logEntry as [[contextData [[[sig|] lgs]|]]|]; try (now split).
  destruct (String.eqb_spec sig "") as [->|Hne]; [now split |].
  destruct (in_dec string_dec sig (processedTransactions m)) as [Hin|Hnew].
  - rewrite (handleLogNotification_known storeReply m contextData sig lgs Hne Hin).
    cbn [fst].
    now rewrite (handleLogNotification_known storeReply m contextData sig lgs Hne Hin).
  - rewrite (handleLogNotification_monitor storeReply m).
    cbn [entry_signature value signature].
    rewrite (truthy_str_true sig Hne), (proj2 (has_false _ _) Hnew). cbn [andb negb].
    rewrite handleLogNotification_known; [now split | exact Hne |].
    cbn [processedTransactions set_processedTransactions]. now apply remember_In.
Qed.

Lemma immediate_redelivery_is_dropped_witness :
  let storeReply := fun _ : CandidateWallet => StoreOk in
  let wallet := "7xKXtg2CW87d97TXJSDpbD5jBkheTqA83TZRuJosgAsU" in
  let logEntry := logEntry_of "5VERv8NMvzbJ" [("trade by " ++ wallet)%string] 9 in
  let first := handleLogNotification storeReply constructor logEntry in
  List.length (upserts (snd first)) = 1%nat
  /\ upserts (snd (handleLogNotification storeReply (fst first) logEntry)) = [].
Proof.
  intros storeReply wallet logEntry first. split; [vm_compute; reflexivity |].
  exact (proj2 (immediate_redelivery_is_dropped storeReply constructor logEntry
                  (NoDup_nil _))).
Defined.

(** X11: the signature is remembered before the logs are looked at: a
    notification with a new signature and no [logs] writes nothing to the
    store (the classifier's exception is reported), and from then on a
    notification with that signature is dropped even when it brings logs. *)
Theorem missing_logs_still_consume_the_signature
    (storeReply : CandidateWallet -> StoreReply) (m : SolanaMonitor)
    (contextData : option LogContext) (sig : string) :
  NoDup (processedTransactions m) ->
  sig <> "" ->
  ~ In sig (processedTransactions m) ->
  let first :=
    handleLogNotification storeReply m
      (Some {| context := contextData;
               value := Some {| signature := Some sig; logs := None |} |}) in
  snd first = [ConsoleLog "New transaction:";
               ConsoleError "Error handling log notification:"]
  /\ In sig (processedTransactions (fst first))
  /\ forall contextData' lines,
       handleLogNotification storeReply (fst first)
         (Some {| context := contextData';
                  value := Some {| signature := Some sig; logs := Some lines |} |})
       = (fst first, []).
Proof.
  intros Hnd Hne Hnew first.
  assert (Hfirst : first
                   = (set_processedTransactions m (remember (processedTransactions m) sig),
                      [ConsoleLog "New transaction:";
                       ConsoleError "Error handling log notification:"])).
  { subst first. unfold handleLogNotification. cbn [signature logs].
    rewrite (truthy_str_true sig Hne). cbn [negb].
    now rewrite (proj2 (has_false _ _) Hnew). }
  rewrite Hfirst. cbn [fst snd processedTransactions set_processedTransactions].
  assert (Hin : In sig (remember (processedTransactions m) sig))
    by now apply remember_In.
  split; [reflexivity |]. split; [exact Hin |].
  intros contextData' lines. now apply handleLogNotification_known.
Qed.

Lemma missing_logs_still_consume_the_signature_witness :
  let storeReply := fun _ : CandidateWallet => StoreOk in
  let first :=
    handleLogNotification storeReply constructor
      (Some {| context := None;
               value := Some {| signature := Some "5VERv8NMvzbJ"; logs := None |} |}) in
  handleLogNotification storeReply (fst first) (logEntry_of "5VERv8NMvzbJ" ["swap"] 9)
  = (fst first, []).
Proof.
  intros storeReply first.
  destruct (missing_logs_still_consume_the_signature storeReply constructor None
              "5VERv8NMvzbJ" (NoDup_nil _) ltac:(discriminate) (fun H => H))
    as (_ & _ & Hdrop).
  exact (Hdrop (Some {| slot := Some 9%Z |}) ["swap"]).
Defined.

(** ** What reaches the store *)

Lemma scan_sound_all (line : string) (a : string) :
  In a (WalletRegex.match_all line) ->
  all_class a = true /\ (32 <= String.length a <= 44)%nat /\ JS.Substring a line.
Proof. apply scan_sound. Qed.

(** X12: the candidate rows written for one notification name pairwise
    distinct addresses; each address is made of 32 to 44 characters of the
    base-58 alphabet, and each row carries the notification's signature, the
    source "DEX_activity", the score 50 and the status "pending". *)
Theorem candidate_rows_of_a_notification
    (storeReply : CandidateWallet -> StoreReply) (m : SolanaMonitor)
    (logEntry : option LogEntry) :
  let rows := upserts (snd (handleLogNotification storeReply m logEntry)) in
  NoDup (map wallet_address rows)
  /\ forall row, In row rows ->
       all_class (wallet_address row) = true
       /\ (32 <= String.length (wallet_address row) <= 44)%nat
       /\ entry_signature logEntry = Some (metadata_signature row)
       /\ discovery_source row = "DEX_activity"
       /\ initial_score row = 50%Z
       /\ status row = "pending".
Proof.
  intros rows. subst rows.
  destruct (upserts_handleLogNotification storeReply m logEntry)
    as [->|(contextData & sig & lines & Hsig & ->)].
  - split; [constructor | intros row []].
  - split.
    + rewrite map_map. cbn [wallet_address candidate]. rewrite map_id.
      apply extract_fold_NoDup. constructor.
    + intros row Hrow. apply in_map_iff in Hrow. destruct Hrow as [a [<- Ha]].
      cbn [wallet_address candidate metadata_signature discovery_source
           initial_score status].
      apply extractWalletAddresses_In in Ha. destruct Ha as [line [_ Hm]].
      destruct (scan_sound_all line a Hm) as (H1 & H2 & _).
      repeat split; try assumption; lia.
Qed.

Lemma program_ids_are_address_shaped (programId : string) :
  In programId ACTIVE_DEX_PROGRAMS ->
  programId <> "" /\ all_class programId = true
  /\ (32 <= String.length programId <= 44)%nat.
Proof.
  unfold ACTIVE_DEX_PROGRAMS. intros H.
  repeat (destruct H as [<-|H];
          [split; [discriminate | split; [vm_compute; reflexivity | vm_compute; lia]] |]).
  destruct H.
Qed.

(** X13: the sink does not tell programs from wallets: when a log line of a
    new notification mentions one of the six DEX programs as a word of its
    own (nothing from the alphabet right before or after it), the
    notification is classified as a DEX transaction and the program's own
    address is upserted as a candidate wallet. *)
Theorem program_id_becomes_candidate
    (storeReply : CandidateWallet -> StoreReply) (m : SolanaMonitor)
    (contextData : option LogContext) (sig programId pre post : string)
    (lines : list string) :
  sig <> "" ->
  ~ In sig (processedTransactions m) ->
  In programId ACTIVE_DEX_PROGRAMS ->
  ends_outside pre = true ->
  starts_outside post = true ->
  In (pre ++ programId ++ post)%string lines ->
  In (candidate programId sig contextData)
     (upserts (snd (handleLogNotification storeReply m
                      (Some {| context := contextData;
                               value := Some {| signature := Some sig;
                                                logs := Some lines |} |})))).
Proof.
  intros Hne Hnew Hp Hpre Hpost Hline.
  destruct (program_ids_are_address_shaped programId Hp) as (Hnonempty & Hclass & Hlen).
  assert (Hdex : isDEXTransaction lines = true).
  { unfold isDEXTransaction. apply some_exists.
    exists (pre ++ programId ++ post)%string. split; [exact Hline |].
    rewrite !orb_true_iff. left; left; left. apply some_exists.
    exists programId. split; [exact Hp |]. apply includes_Substring. now exists pre, post. }
  unfold handleLogNotification. cbn [signature logs].
  rewrite (truthy_str_true sig Hne), (proj2 (has_false _ _) Hnew), Hdex.
  cbn [negb snd app upserts processTransaction].
  rewrite upserts_quickWalletDiscovery. cbn [logs].
  apply (in_map (fun walletAddress => candidate walletAddress sig contextData)).
  apply extractWalletAddresses_In.
  exists (pre ++ programId ++ post)%string. split; [exact Hline |].
  assert (Hrun : MaximalRun programId (pre ++ programId ++ post)%string).
  { exists pre, post. split; [reflexivity |]. split; [exact Hnonempty |].
    split; [exact Hclass |]. split; assumption. }
  pose proof (match_all_maximal_run _ _ Hrun ltac:(lia)) as Hin.
  now rewrite (substring_all programId 44) in Hin by lia.
Qed.

Lemma program_id_becomes_candidate_witness :
  let storeReply := fun _ : CandidateWallet => StoreOk in
  let line := ("Program " ++ JUPITER ++ " invoke [1]")%string in
  let rows :=
    upserts (snd (handleLogNotification storeReply constructor
                    (logEntry_of "5VERv8NMvzbJ" [line] 9))) in
  In (candidate JUPITER "5VERv8NMvzbJ" (Some {| slot := Some 9%Z |})) rows
  /\ map wallet_address rows = [JUPITER].
Proof.
  intros storeReply line rows. split; [| vm_compute; reflexivity].
  exact (program_id_becomes_candidate storeReply constructor
           (Some {| slot := Some 9%Z |}) "5VERv8NMvzbJ" JUPITER
           "Program " " invoke [1]" [line]
           ltac:(discriminate) (fun H => H)
           ltac:(vm_compute; tauto) eq_refl eq_refl ltac:(now left)).
Defined.

(** ** More on the extractor *)

(** The matches of a line do not overlap: together they are no longer than
    the line. *)
Lemma scan_total_length (s : string) :
  forall skip,
    (skip <= String.length s)%nat ->
    (total_length (WalletRegex.scan skip s) + skip <= String.length s)%nat.
Proof.
  induction s as [|c s IH]; intros skip Hskip; cbn [WalletRegex.scan String.length] in *.
  - simpl. lia.
  - destruct skip as [|k].
    + destruct (WalletRegex.match_at (String c s)) as [t|] eqn:Hm.
      * destruct (match_at_Some _ _ Hm) as (_ & Hlen & rest & Heq).
        apply (f_equal String.length) in Heq. rewrite append_length in Heq.
        cbn [String.length] in Heq. cbn [total_length].
        specialize (IH (String.length t - 1)%nat ltac:(lia)). lia.
      * specialize (IH 0%nat ltac:(lia)). lia.
    + specialize (IH k ltac:(lia)). lia.
Qed.

Lemma match_all_count (line : string) :
  (32 * List.length (WalletRegex.match_all line)
   <= total_length (WalletRegex.match_all line))%nat.
Proof.
  assert (H : forall a, In a (WalletRegex.match_all line) -> (32 <= String.length a)%nat)
    by (intros a Ha; apply scan_sound_all in Ha; lia).
  induction (WalletRegex.match_all line) as [|t rest IH]; [simpl; lia |].
  cbn [List.length total_length].
  pose proof (H t (or_introl eq_refl)).
  specialize (IH (fun a Ha => H a (or_intror Ha))). lia.
Qed.

Lemma collect_length (matches : list string) :
  forall acc,
    (List.length
       (fold_left
          (fun acc address =>
             if ((32 <=? String.length address) && (String.length address <=? 44))%nat
             then JS.add String.eqb acc address
             else acc)
          matches acc)
     <= List.length acc + List.length matches)%nat.
Proof.
  induction matches as [|a rest IH]; intros acc; cbn [fold_left List.length]; [lia |].
  destruct (_ && _)%nat.
  - specialize (IH (JS.add String.eqb acc a)). pose proof (add_length acc a). lia.
  - specialize (IH acc). lia.
Qed.

Lemma extract_fold_length (lines : list string) :
  forall acc,
    (32 * List.length
            (fold_left
               (fun walletAddresses log =>
                  fold_left
                    (fun acc address =>
                       if ((32 <=? String.length address)
                           && (String.length address <=? 44))%nat
                       then JS.add String.eqb acc address
                       else acc)
                    (WalletRegex.match_all log) walletAddresses)
               lines acc)
     <= 32 * List.length acc + total_length lines)%nat.
Proof.
  induction lines as [|l rest IH]; intros acc; cbn [fold_left total_length]; [lia |].
  etransitivity; [apply IH |].
  pose proof (collect_length (WalletRegex.match_all l) acc) as Hc.
  pose proof (match_all_count l) as Hn.
  pose proof (scan_total_length l 0 ltac:(lia)) as Ht.
  unfold WalletRegex.match_all in *. lia.
Qed.

(** X14: tokens are found line by line and never overlap: an address is
    extracted from a list of lines exactly when it is extracted from one of
    them alone; a notification whose lines hold [n] characters in all yields
    at most [n / 32] addresses; in particular no address comes out of lines
    shorter than 32 characters or of an empty list of lines. *)
Theorem extraction_is_per_line_and_bounded (lines : list string) :
  (forall a,
     In a (extractWalletAddresses lines)
     <-> exists line, In line lines /\ In a (extractWalletAddresses [line]))
  /\ (32 * List.length (extractWalletAddresses lines) <= total_length lines)%nat
  /\ ((forall line, In line lines -> (String.length line < 32)%nat) ->
      extractWalletAddresses lines = []).
Proof.
  split; [| split].
  - intros a. rewrite extractWalletAddresses_In. split.
    + intros [line [Hl Hm]]. exists line. split; [exact Hl |].
      apply extractWalletAddresses_In. exists line. split; [now left | exact Hm].
    + intros [line [Hl Ha]]. apply extractWalletAddresses_In in Ha.
      destruct Ha as [line' [[<-|[]] Hm]]. now exists line.
  - pose proof (extract_fold_length lines []) as H. cbn [List.length] in H.
    unfold extractWalletAddresses. lia.
  - intros Hshort. destruct (extractWalletAddresses lines) as [|a rest] eqn:Hex;
      [reflexivity | exfalso].
    assert (Ha : In a (extractWalletAddresses lines)) by (rewrite Hex; now left).
    apply extractWalletAddresses_In in Ha. destruct Ha as [line [Hl Hm]].
    destruct (scan_sound_all line a Hm) as (_ & Hlen & pre & post & Heq).
    apply (f_equal String.length) in Heq. rewrite !append_length in Heq.
    specialize (Hshort line Hl). lia.
Qed.

Lemma extraction_is_per_line_and_bounded_witness :
  let lines := ["Program log: Instruction: Swap"; "Program consumed 1234 units"] in
  extractWalletAddresses lines = [].
Proof.
  intros lines.
  destruct (extraction_is_per_line_and_bounded lines) as (_ & _ & Hshort).
  apply Hshort. intros line [<-|[<-|[]]]; vm_compute; lia.
Defined.

(** ** How long a signature is remembered *)

Lemma In_skipn {A} (n : nat) (l : list A) (x : A) : In x (skipn n l) -> In x l.
Proof.
  intros H. rewrite <- (firstn_skipn n l). apply in_or_app. now right.
Qed.

Lemma slice_last_mono {A} (n k : nat) (l : list A) (x : A) :
  (n <= k)%nat -> In x (JS.slice_last n l) -> In x (JS.slice_last k l).
Proof.
  unfold JS.slice_last. intros Hnk H.
  replace (List.length l - n)%nat
    with ((List.length l - n - (List.length l - k)) + (List.length l - k))%nat in H by lia.
  rewrite <- skipn_skipn in H. exact (In_skipn _ _ _ H).
Qed.

Lemma slice_last_snoc {A} (n : nat) (l : list A) (x : A) :
  JS.slice_last (S n) (l ++ [x]) = JS.slice_last n l ++ [x].
Proof.
  unfold JS.slice_last. rewrite length_app, skipn_app. cbn [List.length].
  replace (List.length l + 1 - S n)%nat with (List.length l - n)%nat by lia.
  replace (List.length l - n - List.length l)%nat with 0%nat by lia.
  reflexivity.
Qed.

(** The cache after a new signature: the old entries, or the last 499 of
    them when the clean-up ran, and then the new one. *)
Lemma remember_snoc (cache : list string) (x : string) :
  NoDup cache ->
  ~ In x cache ->
  remember cache x
  = (if (1000 <? List.length cache + 1)%nat
     then skipn (List.length cache - 499) cache
     else cache) ++ [x].
Proof.
  intros Hnd Hnew. unfold remember.
  pose proof (add_NoDup cache x Hnd) as Hnd'.
  rewrite (add_novel cache x Hnew) in *. rewrite length_app. cbn [List.length].
  destruct (1000 <? List.length cache + 1)%nat eqn:Hbig; [| reflexivity].
  apply Nat.ltb_lt in Hbig.
  rewrite from_list_distinct by (apply NoDup_skipn, Hnd').
  unfold JS.slice_last. rewrite length_app, skipn_app. cbn [List.length].
  replace (List.length cache + 1 - 500)%nat with (List.length cache - 499)%nat by lia.
  replace (List.length cache - 499 - List.length cache)%nat with 0%nat by lia.
  reflexivity.
Qed.

Lemma remember_recent (cache : list string) (x sig : string) (n : nat) :
  NoDup cache ->
  ~ In x cache ->
  (n < 500)%nat ->
  In sig (JS.slice_last n cache) ->
  In sig (JS.slice_last (S n) (remember cache x)).
Proof.
  intros Hnd Hnew Hn Hsig. rewrite (remember_snoc cache x Hnd Hnew), slice_last_snoc.
  apply in_or_app. left.
  destruct (1000 <? List.length cache + 1)%nat eqn:Hbig; [| exact Hsig].
  apply Nat.ltb_lt in Hbig. unfold JS.slice_last in *.
  rewrite length_skipn, skipn_skipn.
  replace (List.length cache - (List.length cache - 499) - n + (List.length cache - 499))%nat
    with (List.length cache - n)%nat by lia.
  exact Hsig.
Qed.

Lemma handleLogNotification_recent
    (storeReply : CandidateWallet -> StoreReply) (m : SolanaMonitor)
    (logEntry : option LogEntry) (sig : string) (n : nat) :
  NoDup (processedTransactions m) ->
  (n < 500)%nat ->
  In sig (JS.slice_last n (processedTransactions m)) ->
  NoDup (processedTransactions (fst (handleLogNotification storeReply m logEntry)))
  /\ In sig (JS.slice_last (S n)
               (processedTransactions
                  (fst (handleLogNotification storeReply m logEntry)))).
Proof.
  intros Hnd Hn Hsig. rewrite handleLogNotification_monitor.
  assert (Hsame : NoDup (processedTransactions m)
                  /\ In sig (JS.slice_last (S n) (processedTransactions m)))
    by (split; [exact Hnd | apply (slice_last_mono n); [lia | exact Hsig]]).
  destruct (entry_signature logEntry) as [x|]; [| exact Hsame].
  destruct (JS.truthy_str x); cbn [andb]; [| exact Hsame].
  destruct (JS.has String.eqb (processedTransactions m) x) eqn:Hhas; cbn [negb];
    [exact Hsame |].
  apply has_false in Hhas. cbn [processedTransactions set_processedTransactions].
  split; [now apply remember_NoDup | now apply remember_recent].
Qed.

Lemma deliver_recent
    (storeReply : CandidateWallet -> StoreReply) (sig : string)
    (entries : list (option LogEntry)) :
  forall m n,
    NoDup (processedTransactions m) ->
    (n + List.length entries <= 500)%nat ->
    In sig (JS.slice_last n (processedTransactions m)) ->
    In sig (processedTransactions (deliver storeReply m entries)).
Proof.
  induction entries as [|e rest IH]; intros m n Hnd Hn Hsig; cbn [deliver fold_left].
  - unfold JS.slice_last in Hsig. exact (In_skipn _ _ _ Hsig).
  - cbn [List.length] in Hn.
    destruct (handleLogNotification_recent storeReply m e sig n Hnd ltac:(lia) Hsig)
      as [Hnd' Hsig'].
    apply (IH _ (S n)); [exact Hnd' | lia | exact Hsig'].
Qed.

(** X15: a signature that has just been accepted stays in the dedup cache
    while the next 499 payloads are handled, whatever they are (new, known
    or malformed), the clean-up of a full cache included; a notification with
    that signature arriving within this window is dropped with no effect. *)
Theorem duplicate_within_499_deliveries_is_dropped
    (storeReply : CandidateWallet -> StoreReply) (m : SolanaMonitor)
    (contextData : option LogContext) (sig : string) (lgs : option (list string))
    (entries : list (option LogEntry)) :
  NoDup (processedTransactions m) ->
  sig <> "" ->
  ~ In sig (processedTransactions m) ->
  (List.length entries <= 499)%nat ->
  let m1 :=
    fst (handleLogNotification storeReply m
           (Some {| context := contextData;
                    value := Some {| signature := Some sig; logs := lgs |} |})) in
  let m2 := deliver storeReply m1 entries in
  In sig (processedTransactions m2)
  /\ forall contextData' lgs',
       handleLogNotification storeReply m2
         (Some {| context := contextData';
                  value := Some {| signature := Some sig; logs := lgs' |} |})
       = (m2, []).
Proof.
  intros Hnd Hne Hnew Hlen m1 m2.
  assert (Hm1 : processedTransactions m1 = remember (processedTransactions m) sig).
  { subst m1. rewrite handleLogNotification_monitor.
    cbn [entry_signature value signature].
    now rewrite (truthy_str_true sig Hne), (proj2 (has_false _ _) Hnew). }
  assert (Hin : In sig (processedTransactions m2)).
  { subst m2. apply (deliver_recent storeReply sig entries m1 1).
    - rewrite Hm1. now apply remember_NoDup.
    - lia.
    - rewrite Hm1, (remember_snoc _ _ Hnd Hnew), slice_last_snoc.
      apply in_or_app. right. now left. }
  split; [exact Hin |].
  intros contextData' lgs'. now apply handleLogNotification_known.
Qed.

Lemma duplicate_within_499_deliveries_is_dropped_witness :
  let storeReply := fun _ : CandidateWallet => StoreOk in
  let m1 := fst (handleLogNotification storeReply constructor
                   (logEntry_of "5VERv8NMvzbJ" ["swap"] 7)) in
  let m2 := deliver storeReply m1
              [logEntry_of (sig_n 1) [] 8; None; logEntry_of (sig_n 2) ["trade"] 9] in
  processedTransactions m2 = ["5VERv8NMvzbJ"; sig_n 1; sig_n 2]
  /\ handleLogNotification storeReply m2 (logEntry_of "5VERv8NMvzbJ" ["swap"] 7)
     = (m2, []).
Proof.
  intros storeReply m1 m2. split; [vm_compute; reflexivity |].
  destruct (duplicate_within_499_deliveries_is_dropped storeReply constructor
              (Some {| slot := Some 7%Z |}) "5VERv8NMvzbJ" (Some ["swap"])
              [logEntry_of (sig_n 1) [] 8; None; logEntry_of (sig_n 2) ["trade"] 9]
              (NoDup_nil _) ltac:(discriminate) (fun H => H) ltac:(simpl; lia))
    as [_ Hdrop].
  exact (Hdrop (Some {| slot := Some 7%Z |}) (Some ["swap"])).
Defined.

(** ** The analysis of a fetched transaction *)

Lemma find_first {A} (f : A -> bool) (l : list A) :
  match find f l with
  | Some x =>
      f x = true
      /\ exists before after,
           l = before ++ x :: after /\ forall y, In y before -> f y = false
  | None => forall y, In y l -> f y = false
  end.
Proof.
  induction l as [|a l IH]; cbn [find]; [intros y [] |].
  destruct (f a) eqn:Ha.
  - split; [exact Ha |]. exists [], l. split; [reflexivity | intros y []].
  - destruct (find f l) as [x|].
    + destruct IH as [Hx (before & after & -> & Hb)]. split; [exact Hx |].
      exists (a :: before), after. split; [reflexivity |].
      intros y [<-|Hy]; [exact Ha | now apply Hb].
    + intros y [<-|Hy]; [exact Ha | now apply IH].
Qed.

(** X16: [detectDEXProgram] answers with the first program of the table, in
    the order RAYDIUM, JUPITER, ORCA, PUMP_FUN, METEORA, OPENBOOK, that is
    among the account keys, and with [null] exactly when none of the six
    is. *)
Theorem detectDEXProgram_first_in_table_order (accountKeys : list string) :
  match detectDEXProgram accountKeys with
  | Some programId =>
      In programId accountKeys
      /\ exists before after,
           ACTIVE_DEX_PROGRAMS = before ++ programId :: after
           /\ forall earlier, In earlier before -> ~ In earlier accountKeys
  | None => forall programId, In programId ACTIVE_DEX_PROGRAMS -> ~ In programId accountKeys
  end.
Proof.
  unfold detectDEXProgram.
  pose proof (find_first (fun programId => JS.has String.eqb accountKeys programId)
                ACTIVE_DEX_PROGRAMS) as H.
  destruct (find _ ACTIVE_DEX_PROGRAMS) as [programId|].
  - destruct H as [Hp (before & after & Heq & Hb)]. split; [now apply has_In |].
    exists before, after. split; [exact Heq |].
    intros earlier He. apply has_false. now apply Hb.
  - intros programId Hp. apply has_false. now apply H.
Qed.



(** X17: [checkForWalletDiscovery] writes at most one candidate row and no
    trade row; a row it writes is for the first account key, which is then
    not empty and not a tracked wallet, and names as DEX the program
    [detectDEXProgram] finds among the keys; when the first account key is a
    tracked wallet, or no DEX program is among the keys, it does nothing at
    all. *)
Theorem checkForWalletDiscovery_guards
    (discoveredReply : DiscoveredWallet -> StoreReply) (m : SolanaMonitor)
    (transaction : Transaction) :
  let es := checkForWalletDiscovery discoveredReply m transaction in
  let accountKeys :=
    match tx_accountKeys transaction with Some keys => keys | None => [] end in
  (List.length (discovered es) <= 1)%nat
  /\ trades es = []
  /\ (forall row, In row (discovered es) ->
        exists rest,
          accountKeys = found_wallet_address row :: rest
          /\ found_wallet_address row <> ""
          /\ ~ In (found_wallet_address row) (trackedWallets m)
          /\ detectDEXProgram accountKeys = Some (found_dex_program row)
          /\ date_ms (tx_blockTime transaction) = Some (found_first_seen_at row)
          /\ found_metadata_accountCount row = List.length accountKeys)
  /\ ((detectDEXProgram accountKeys = None
       \/ exists first rest, accountKeys = first :: rest
                             /\ In first (trackedWallets m)) ->
      es = []).
Proof.
  intros es accountKeys. subst es. unfold checkForWalletDiscovery.
  fold accountKeys.
  assert (Hnothing :
            (List.length (discovered []) <= 1)%nat
            /\ trades [] = []
            /\ (forall row, In row (discovered []) ->
                  exists rest,
                    accountKeys = found_wallet_address row :: rest
                    /\ found_wallet_address row <> ""
                    /\ ~ In (found_wallet_address row) (trackedWallets m)
                    /\ detectDEXProgram accountKeys = Some (found_dex_program row)
                    /\ date_ms (tx_blockTime transaction) = Some (found_first_seen_at row)
                    /\ found_metadata_accountCount row = List.length accountKeys)
            /\ ((detectDEXProgram accountKeys = None
                 \/ exists first rest, accountKeys = first :: rest
                                       /\ In first (trackedWallets m)) ->
                @nil AnalysisEffect = [])).
  { split; [simpl; lia |]. split; [reflexivity |]. split; [intros row [] | reflexivity]. }
  destruct (detectDEXProgram accountKeys) as [dexProgram|] eqn:Hdex; [| exact Hnothing].
  destruct (JS.truthy_str dexProgram) eqn:Hprog; cbn [negb]; [| exact Hnothing].
  destruct accountKeys as [|potentialWallet rest] eqn:Hkeys; [exact Hnothing |].
  destruct (JS.truthy_str potentialWallet) eqn:Hpw; cbn [negb orb]; [| exact Hnothing].
  destruct (JS.has String.eqb (trackedWallets m) potentialWallet) eqn:Htracked;
    [exact Hnothing |].
  clear Hnothing.
  assert (Hne : potentialWallet <> "") by (intros ->; discriminate).
  apply has_false in Htracked.
  assert (Hno : (Some dexProgram = None
                 \/ exists first rest0, potentialWallet :: rest = first :: rest0
                                        /\ In first (trackedWallets m)) -> False).
  { intros [Hd|(first & rest0 & Heq & Hin)]; [discriminate |].
    injection Heq as <- _. contradiction. }
  destruct (date_ms (tx_blockTime transaction)) as [instant|] eqn:Hdate.
  2:{ split; [simpl; lia |]. split; [reflexivity |]. split; [intros row [] |].
      intros H. destruct (Hno H). }
  destruct (discoveredReply _) eqn:Hreply;
    (split; [simpl; lia |]; split; [reflexivity |]; split;
     [ intros row [<-|[]]; exists rest; cbn;
       split; [reflexivity |]; split; [exact Hne |]; split; [exact Htracked |];
       split; [reflexivity |]; split; reflexivity
     | intros H; destruct (Hno H) ]).
Qed.

Lemma storeTradeData_rows
    (tradeReply : TradeRow -> StoreReply) (transaction : Transaction)
    (wallets : list string) :
  discovered (storeTradeData tradeReply transaction wallets) = []
  /\ (exists k, map trade_wallet_address
                  (trades (storeTradeData tradeReply transaction wallets))
                = firstn k wallets)
  /\ forall row, In row (trades (storeTradeData tradeReply transaction wallets)) ->
       In (trade_wallet_address row) wallets
       /\ date_ms (tx_blockTime transaction) = Some (trade_timestamp row)
       /\ exists accountKeys,
            tx_accountKeys transaction = Some accountKeys
            /\ trade_dex_program_id row = detectDEXProgram accountKeys.
Proof.
  induction wallets as [|w rest (IHd & (k & IHk) & IHr)]; cbn [storeTradeData].
  - split; [reflexivity |]. split; [now exists 0%nat | intros row []].
  - destruct (date_ms (tx_blockTime transaction)) as [instant|] eqn:Hdate.
    2:{ split; [reflexivity |]. split; [now exists 0%nat | intros row []]. }
    destruct (tx_accountKeys transaction) as [accountKeys|] eqn:Hkeys.
    2:{ split; [reflexivity |]. split; [now exists 0%nat | intros row []]. }
    destruct (tradeReply _) eqn:Hreply; cbn [trades discovered map].
    + split; [exact IHd |]. split.
      * exists (S k). cbn [firstn trade_wallet_address]. now rewrite IHk.
      * intros row [<-|Hrow].
        -- cbn. split; [now left |]. split; [reflexivity |]. now exists accountKeys.
        -- destruct (IHr row Hrow) as (H1 & H2 & H3). split; [now right | now split].
    + split; [exact IHd |]. split.
      * exists (S k). cbn [firstn trade_wallet_address]. now rewrite IHk.
      * intros row [<-|Hrow].
        -- cbn. split; [now left |]. split; [reflexivity |]. now exists accountKeys.
        -- destruct (IHr row Hrow) as (H1 & H2 & H3). split; [now right | now split].
    + split; [reflexivity |]. split.
      * now exists 1%nat.
      * intros row [<-|[]]. cbn. split; [now left |]. split; [reflexivity |].
        now exists accountKeys.
Qed.

(** X18: [storeTradeData] writes its trade rows in the order of the wallets
    it is given and stops at the first exception: the wallets of the rows
    written are a prefix of the list; nothing is written when the block time
    gives no valid date or the account keys are missing; and when the date is
    valid, the keys are there and no store call throws, there is exactly one
    row per wallet, store errors included. *)
Theorem storeTradeData_writes_a_prefix
    (tradeReply : TradeRow -> StoreReply) (transaction : Transaction)
    (wallets : list string) :
  let rows := trades (storeTradeData tradeReply transaction wallets) in
  (exists k, map trade_wallet_address rows = firstn k wallets)
  /\ ((date_ms (tx_blockTime transaction) = None
       \/ tx_accountKeys transaction = None) -> rows = [])
  /\ ((forall row, tradeReply row <> StoreThrows) ->
      date_ms (tx_blockTime transaction) <> None ->
      tx_accountKeys transaction <> None ->
      map trade_wallet_address rows = wallets).
Proof.
  intros rows. subst rows.
  split; [apply storeTradeData_rows |]. split.
  - intros Hbad. destruct wallets as [|w rest]; [reflexivity |]. cbn [storeTradeData].
    destruct Hbad as [Hbad|Hbad]; rewrite Hbad; [reflexivity |].
    now destruct (date_ms (tx_blockTime transaction)).
  - intros Hok Hdate Hkeys. induction wallets as [|w rest IH]; [reflexivity |].
    cbn [storeTradeData].
    destruct (date_ms (tx_blockTime transaction)) as [instant|]; [| contradiction].
    destruct (tx_accountKeys transaction) as [accountKeys|]; [| contradiction].
    destruct (tradeReply _) eqn:Hreply; cbn [trades map trade_wallet_address].
    + now rewrite IH.
    + now rewrite IH.
    + destruct (Hok _ Hreply).
Qed.

Lemma storeTradeData_writes_a_prefix_witness :
  let transaction :=
    {| tx_signature := Some "5VERv8NMvzbJ"; tx_slot := Some 7%Z;
       tx_blockTime := BlockTimeSeconds 1700000000;
       tx_meta := Some {| meta_failed := false |};
       tx_accountKeys := Some ["walletA"; JUPITER; "walletB"] |} in
  map trade_wallet_address
    (trades (storeTradeData (fun _ => StoreError) transaction ["walletA"; "walletB"]))
  = ["walletA"; "walletB"]
  /\ trades (storeTradeData (fun _ => StoreOk)
               {| tx_signature := Some "5VERv8NMvzbJ"; tx_slot := Some 7%Z;
                  tx_blockTime := BlockTimeMissing;
                  tx_meta := Some {| meta_failed := false |};
                  tx_accountKeys := Some ["walletA"] |} ["walletA"]) = [].
Proof.
  intros transaction. split.
  - destruct (storeTradeData_writes_a_prefix (fun _ => StoreError) transaction
                ["walletA"; "walletB"]) as (_ & _ & Hall).
    apply Hall; [intros row | |]; discriminate.
  - destruct (storeTradeData_writes_a_prefix (fun _ => StoreOk)
                {| tx_signature := Some "5VERv8NMvzbJ"; tx_slot := Some 7%Z;
                   tx_blockTime := BlockTimeMissing;
                   tx_meta := Some {| meta_failed := false |};
                   tx_accountKeys := Some ["walletA"] |} ["walletA"]) as (_ & Hnone & _).
    apply Hnone. now left.
Defined.



(** X20: [analyzeAndStoreTransaction] writes nothing to the store for a
    transaction that failed ([meta.err] set) or whose [meta] or account keys
    are missing; and when a tracked wallet is among the keys but the
    transaction has no [signature], the exception raised while reporting the
    activity ends the analysis before any write, the candidate check
    included. *)
Theorem analyzeAndStoreTransaction_skips
    (tradeReply : TradeRow -> StoreReply)
    (discoveredReply : DiscoveredWallet -> StoreReply)
    (m : SolanaMonitor) (transaction : Transaction) :
  (tx_meta transaction = None
   \/ tx_meta transaction = Some {| meta_failed := true |}
   \/ tx_accountKeys transaction = None
   \/ (tx_signature transaction = None
       /\ exists accountKeys account,
            tx_accountKeys transaction = Some accountKeys
            /\ In account accountKeys /\ In account (trackedWallets m))) ->
  let es := analyzeAndStoreTransaction tradeReply discoveredReply m transaction in
  trades es = [] /\ discovered es = [].
Proof.
  intros Hskip es. subst es. unfold analyzeAndStoreTransaction.
  destruct (tx_meta transaction) as [[failed]|] eqn:Hmeta; [| now split].
  destruct failed; cbn [meta_failed]; [now split |].
  destruct Hskip as [H|[H|[H|(Hsig & accountKeys & account & Hkeys & Hin & Htracked)]]];
    try discriminate.
  - rewrite H. now split.
  - rewrite Hkeys, Hsig.
    assert (Hinv : In account
                     (filter (fun a => JS.has String.eqb (trackedWallets m) a) accountKeys))
      by (apply filter_In; split; [exact Hin | now apply has_In]).
    destruct (filter _ accountKeys) as [|w rest]; [destruct Hinv |].
    cbn [List.length Nat.ltb Nat.leb]. now split.
Qed.

Lemma analyzeAndStoreTransaction_skips_witness :
  let m := set_trackedWallets constructor ["walletA"] in
  let transaction :=
    {| tx_signature := None; tx_slot := Some 7%Z;
       tx_blockTime := BlockTimeSeconds 1700000000;
       tx_meta := Some {| meta_failed := false |};
       tx_accountKeys := Some ["walletB"; JUPITER; "walletA"] |} in
  analyzeAndStoreTransaction (fun _ => StoreOk) (fun _ => StoreOk) m transaction
  = [AnalysisError "Error analyzing transaction:"]
  /\ discovered
       (analyzeAndStoreTransaction (fun _ => StoreOk) (fun _ => StoreOk) m transaction)
     = []
  /\ List.length
       (discovered (checkForWalletDiscovery (fun _ => StoreOk) m transaction)) = 1%nat.
Proof.
  intros m transaction. split; [vm_compute; reflexivity |]. split.
  - refine (proj2 (analyzeAndStoreTransaction_skips (fun _ => StoreOk) (fun _ => StoreOk)
                     m transaction _)).
    right; right; right. split; [reflexivity |].
    exists ["walletB"; JUPITER; "walletA"], "walletA".
    split; [reflexivity |]. split; simpl; tauto.
  - vm_compute. reflexivity.
Defined.
